(** * Autotask MCP server: protocol dispatcher and stateless HTTP adapter

    A shallow embedding of [src/mcp/server.ts] (the four request handlers
    installed by [AutotaskMcpServer.setupHandlers]) and of the [/mcp] route
    of [createHttpServer] (the stateless Streamable-HTTP adapter), with the
    properties the specification states about them. *)

From Stdlib Require Import ZArith Lia DecimalString.
From stdpp Require Import base option list strings.

Set Warnings "-register-all".
Open Scope string_scope.
Open Scope list_scope.

(** ** JavaScript values *)

(** The values that cross the dispatcher: JSON-like data plus instances of
    [Error] (what [instanceof Error] recognises; subclasses included), which
    carry their [message]. *)
Inductive value : Type :=
| JUndefined
| JNull
| JBool (b : bool)
| JNum (n : Z)
| JStr (s : string)
| JArr (items : list value)
| JObj (props : list (string * value))
| JError (message : string).

(** Property read [o.k] on an object literal: the first binding of [k], or
    [undefined]. *)
Fixpoint get_prop (k : string) (props : list (string * value)) : value :=
  match props with
  | [] => JUndefined
  | (k', v) :: rest => if String.eqb k k' then v else get_prop k rest
  end.

(** ToBoolean. *)
Definition truthy (v : value) : bool :=
  match v with
  | JUndefined | JNull => false
  | JBool b => b
  | JNum n => negb (Z.eqb n 0)
  | JStr s => negb (String.eqb s "")
  | JArr _ | JObj _ | JError _ => true
  end.

(** [a || b] *)
Definition js_or (a b : value) : value := if truthy a then a else b.

(** [error instanceof Error] *)
Definition instanceof_Error (error : value) : bool :=
  match error with
  | JError _ => true
  | _ => false
  end.

(** ** Completions and the handler monad *)

(** How a call or an awaited promise ends: with a value, or with a thrown
    value (a rejection, once awaited). *)
Inductive Completion (E A : Type) : Type :=
| Normal (a : A)
| Throw (e : E).
Arguments Normal {E A} a.
Arguments Throw {E A} e.

Inductive Level := Debug | Info | Err.

(** One [logger.<level>(text, data?)] call. *)
Record LogEntry := { level : Level; text : string; data : option value }.

(** Calls received by the capability handlers, in order. *)
Inductive Invocation :=
| InvListResources
| InvReadResource (uri : string)
| InvListTools
| InvCallTool (name : string) (args : value).

(** Modelled from the spec: [ErrorCode.InternalError] of the protocol SDK,
    whose declaration is not part of the repository sources; the spec gives
    its numeric value (kind Internal, code -32603). *)
Definition InternalError : Z := (-32603)%Z.

(** An [McpError] object: its [code] and its [message] property. *)
Record McpError := { code : Z; message : string }.

(** A number in a template literal. *)
Definition number_text (n : Z) : string := NilEmpty.string_of_int (Z.to_int n).

(** Modelled from the protocol SDK, whose sources are not part of the
    repository: [new McpError(code, message)] calls
    [super(`MCP error ${code}: ${message}`)], so the error's own [message]
    is the second argument behind the text "MCP error <code>: ". *)
Definition new_McpError (c : Z) (msg : string) : McpError :=
  {| code := c; message := "MCP error " +:+ number_text c +:+ ": " +:+ msg |}.

(** Modelled from the spec: the tool result type ([McpToolResult], declared in
    [types/mcp.ts], not part of the sources): a result with [content] and
    [isError]; the dispatcher never looks inside either of them. *)
Record McpToolResult := { content : value; isError : value }.

(** Computations over a state [S] that may throw an [E]: the shape of the
    code below, which logs, calls collaborators and uses [try]/[catch]. *)
Definition M (S E A : Type) : Type := S -> Completion E A * S.

Definition ret {S E A} (a : A) : M S E A := fun st => (Normal a, st).
Definition throw {S E A} (e : E) : M S E A := fun st => (Throw e, st).
Definition bind {S E A B} (m : M S E A) (k : A -> M S E B) : M S E B :=
  fun st =>
    match m st with
    | (Normal a, st') => k a st'
    | (Throw e, st') => (Throw e, st')
    end.
(** [try { body } catch (error) { handler }] *)
Definition try_catch {S E E' A} (body : M S E A) (handler : E -> M S E' A) : M S E' A :=
  fun st =>
    match body st with
    | (Normal a, st') => (Normal a, st')
    | (Throw e, st') => handler e st'
    end.

Declare Scope js_scope.
Delimit Scope js_scope with js.
Notation "x <- m ;; k" := (bind m (fun x => k))
  (at level 100, m at next level, right associativity) : js_scope.
Notation "m ;; k" := (bind m (fun _ => k))
  (at level 100, right associativity) : js_scope.
Open Scope js_scope.

(** ** The protocol dispatcher ([AutotaskMcpServer.setupHandlers]) *)

Section Dispatcher.

(** Whatever the capability handlers act on (the data service, caches). *)
Context {World : Type}.

Record State := { world : World; log : list LogEntry; received : list Invocation }.

Definition logger {E} (lvl : Level) (msg : string) (d : option value) : M State E unit :=
  fun st =>
    (Normal tt,
     {| world := world st;
        log := log st ++ [{| level := lvl; text := msg; data := d |}];
        received := received st |}).

(** A capability handler operation: runs on the world, resolves or rejects. *)
Definition HandlerOp (A : Type) : Type := World -> Completion value A * World.

(** [await handler.op(args)]: the handler sees the call, then settles. *)
Definition await {A} (inv : Invocation) (op : HandlerOp A) : M State value A :=
  fun st =>
    let '(c, w) := op (world st) in
    (c, {| world := w; log := log st; received := received st ++ [inv] |}).

Record AutotaskResourceHandler := {
  listResources : HandlerOp (list value);
  readResource : string -> HandlerOp value }.

Record EnhancedAutotaskToolHandler := {
  listTools : HandlerOp (list value);
  callTool : string -> value -> HandlerOp McpToolResult }.

Record AutotaskMcpServer := {
  resourceHandler : AutotaskResourceHandler;
  toolHandler : EnhancedAutotaskToolHandler }.

Variable this : AutotaskMcpServer.

(** [error instanceof Error ? error.message : 'Unknown error'] *)
Definition cause (error : value) : string :=
  match error with
  | JError message => message
  | _ => "Unknown error"
  end.

(** Handler for [ListResourcesRequestSchema]. *)
Definition handleListResources : M State McpError value :=
  try_catch
    (logger Debug "Handling list resources request" None ;;
     resources <- await InvListResources (listResources (resourceHandler this)) ;;
     ret (JObj [("resources", JArr resources)]))
    (fun error =>
       logger Err "Failed to list resources:" (Some error) ;;
       throw (new_McpError InternalError ("Failed to list resources: " +:+ cause error))).

(** Handler for [ReadResourceRequestSchema]. *)
Definition handleReadResource (uri : string) : M State McpError value :=
  try_catch
    (logger Debug ("Handling read resource request for: " +:+ uri) None ;;
     content <- await (InvReadResource uri) (readResource (resourceHandler this) uri) ;;
     ret (JObj [("contents", JArr [content])]))
    (fun error =>
       logger Err ("Failed to read resource " +:+ uri +:+ ":") (Some error) ;;
       throw (new_McpError InternalError ("Failed to read resource: " +:+ cause error))).

(** Handler for [ListToolsRequestSchema]. *)
Definition handleListTools : M State McpError value :=
  try_catch
    (logger Debug "Handling list tools request" None ;;
     tools <- await InvListTools (listTools (toolHandler this)) ;;
     ret (JObj [("tools", JArr tools)]))
    (fun error =>
       logger Err "Failed to list tools:" (Some error) ;;
       throw (new_McpError InternalError ("Failed to list tools: " +:+ cause error))).

(** Handler for [CallToolRequestSchema]; [arguments] is [JUndefined] when the
    caller omits it. *)
Definition handleCallTool (name : string) (arguments : value) : M State McpError value :=
  try_catch
    (logger Debug ("Handling tool call: " +:+ name) None ;;
     let args := js_or arguments (JObj []) in
     result <- await (InvCallTool name args) (callTool (toolHandler this) name args) ;;
     ret (JObj [("content", content result); ("isError", isError result)]))
    (fun error =>
       logger Err ("Failed to call tool " +:+ name +:+ ":") (Some error) ;;
       throw (new_McpError InternalError ("Failed to call tool: " +:+ cause error))).

(** The four protocol request kinds, with their parameters. *)
Inductive Request :=
| list_resources
| read_resource (uri : string)
| list_tools
| call_tool (name : string) (arguments : value).

(** [server.setRequestHandler(schema, handler)]: each request kind is routed
    to the handler registered for it. *)
Definition dispatch (r : Request) : M State McpError value :=
  match r with
  | list_resources => handleListResources
  | read_resource uri => handleReadResource uri
  | list_tools => handleListTools
  | call_tool name arguments => handleCallTool name arguments
  end.

End Dispatcher.

(** ** The stateless HTTP adapter (the [POST /mcp] route of [createHttpServer]) *)

(** How a call into a collaborator returns, or an awaited promise settles. *)
Definition Outcome : Type := Completion value unit.

(** A [StreamableHTTPServerTransport] object on the heap. *)
Record Transport := {
  sessionIdGenerator : option value; (* [None] is [undefined]: no session ids *)
  onerror : bool;                    (* the error callback is installed *)
  closeCalls : nat }.                (* how often [close()] was invoked on it *)

(** A listener registered by [res.on('close', ...)]: the arrow function of
    the route, closed over its [transport] (a reference into the heap). *)
Inductive Listener := CloseTransport (t : nat).

(** The Express response object of one call. *)
Record Response := {
  headersSent : bool;
  statusCode : Z;
  sent : option value;       (* the body written by [res.json] *)
  closed : bool;             (* ['close'] has been emitted *)
  closeListeners : list Listener }.

(** What the route's function body does, in program order. *)
Inductive Action :=
| ANew (gen : option value)   (* [new StreamableHTTPServerTransport({sessionIdGenerator})] *)
| ASetOnError                 (* [transport.onerror = ...] *)
| AOnClose                    (* [res.on('close', ...)] *)
| AConnect                    (* [mcpServer.connect(transport)] *)
| AHandleRequest (body : value) (* [transport.handleRequest(req, res, req.body)] *)
| ALogError (msg : string)    (* [logger.error(msg, err)] in the [catch] block *)
| AStatusJson (status : Z) (body : value). (* [res.status(status).json(body)] *)

(** Where the [async] function of one call is suspended. *)
Inductive Pc := AwaitConnect | AwaitHandleRequest | Returned.

(** One invocation of the route: its [req.body], its [res], the [transport]
    constant of its closure, and the record of what it did so far. *)
Record Call := {
  pc : Pc;
  body : value;
  res : Response;
  transport : option nat;
  history : list Action }.

(** The process: the heap of transports, the calls in flight or finished,
    the logger's output, what nothing handled (exceptions that escaped to
    the event loop and rejections of promises that nobody awaits), and the
    one [mcpServer] that every call shares, as far as the route touches it:
    the transports handed to its [connect], in order. *)
Record Server := {
  transports : list Transport;
  calls : list Call;
  logs : list LogEntry;
  uncaught : list value;
  connected : list nat }.

Definition init : Server :=
  {| transports := []; calls := []; logs := []; uncaught := []; connected := [] |}.

(** The code of one call runs on the process state and its own frame. *)
Definition Frame : Type := Server * Call.

Definition record (a : Action) (c : Call) : Call :=
  {| pc := pc c; body := body c; res := res c; transport := transport c;
     history := history c ++ [a] |}.

Definition goto (p : Pc) (c : Call) : Call :=
  {| pc := p; body := body c; res := res c; transport := transport c;
     history := history c |}.

Definition with_res (r : Response) (c : Call) : Call :=
  {| pc := pc c; body := body c; res := r; transport := transport c;
     history := history c |}.

Definition with_transport (t : nat) (c : Call) : Call :=
  {| pc := pc c; body := body c; res := res c; transport := Some t;
     history := history c |}.

Definition with_transports (ts : list Transport) (s : Server) : Server :=
  {| transports := ts; calls := calls s; logs := logs s; uncaught := uncaught s;
     connected := connected s |}.

Definition with_calls (cs : list Call) (s : Server) : Server :=
  {| transports := transports s; calls := cs; logs := logs s; uncaught := uncaught s;
     connected := connected s |}.

(** [logger.error(msg, err)] *)
Definition logger_error {E} (msg : string) (err : value) : M Server E unit :=
  fun s =>
    (Normal tt,
     {| transports := transports s; calls := calls s;
        logs := logs s ++ [{| level := Err; text := msg; data := Some err |}];
        uncaught := uncaught s; connected := connected s |}).

Definition escape (e : value) (s : Server) : Server :=
  {| transports := transports s; calls := calls s; logs := logs s;
     uncaught := uncaught s ++ [e]; connected := connected s |}.

(** Run process-level code from inside a call. *)
Definition on_server {E A} (m : M Server E A) : M Frame E A :=
  fun f => let '(r, s) := m (fst f) in (r, (s, snd f)).

(** Run a step that only touches the call's own frame. *)
Definition on_call {E} (g : Call -> Call) : M Frame E unit :=
  fun f => (Normal tt, (fst f, g (snd f))).

(** [const transport = new StreamableHTTPServerTransport({sessionIdGenerator})]:
    when the constructor returns, a new object at the next free address. *)
Definition new_StreamableHTTPServerTransport (gen : option value) (construct : Outcome)
  : M Frame value nat :=
  fun f =>
    let '(s, c) := f in
    match construct with
    | Throw err => (Throw err, (s, record (ANew gen) c))
    | Normal _ =>
        let t := length (transports s) in
        let obj := {| sessionIdGenerator := gen; onerror := false; closeCalls := 0 |} in
        (Normal t,
         (with_transports (transports s ++ [obj]) s,
          with_transport t (record (ANew gen) c)))
    end.

(** [transport.onerror = (err) => { logger.error(...) }] *)
Definition set_onerror (t : nat) : M Frame value unit :=
  fun f =>
    let '(s, c) := f in
    let install tr :=
      {| sessionIdGenerator := sessionIdGenerator tr; onerror := true;
         closeCalls := closeCalls tr |} in
    (Normal tt, (with_transports (alter install t (transports s)) s, record ASetOnError c)).

(** [res.on('close', listener)] *)
Definition res_on_close (l : Listener) : M Frame value unit :=
  on_call (fun c =>
    let r := res c in
    record AOnClose
      (with_res {| headersSent := headersSent r; statusCode := statusCode r;
                   sent := sent r; closed := closed r;
                   closeListeners := closeListeners r ++ [l] |} c)).

(** [await mcpServer.connect(transport)]: the call is made and the function
    suspends until the promise settles. *)
Definition mcpServer_connect (t : nat) : M Frame value unit :=
  fun f =>
    let '(s, c) := f in
    (Normal tt,
     ({| transports := transports s; calls := calls s; logs := logs s;
         uncaught := uncaught s; connected := connected s ++ [t] |},
      goto AwaitConnect (record AConnect c))).

(** [await transport.handleRequest(req, res, req.body)] *)
Definition transport_handleRequest : M Frame value unit :=
  on_call (fun c => goto AwaitHandleRequest (record (AHandleRequest (body c)) c)).

(** The envelope of the [catch] block. *)
Definition internal_server_error : value :=
  JObj [("jsonrpc", JStr "2.0");
        ("error", JObj [("code", JNum (-32603)%Z);
                        ("message", JStr "Internal server error")]);
        ("id", JNull)].

(** [res.status(status).json(payload)] *)
Definition res_status_json (status : Z) (payload : value) : M Frame value unit :=
  on_call (fun c =>
    let r := res c in
    record (AStatusJson status payload)
      (with_res {| headersSent := true; statusCode := status; sent := Some payload;
                   closed := closed r; closeListeners := closeListeners r |} c)).

(** The [catch (err)] block of the route. *)
Definition catch_block (err : value) : M Frame value unit :=
  on_server (logger_error "Failed to handle MCP request" err) ;;
  on_call (record (ALogError "Failed to handle MCP request")) ;;
  fun f =>
    if negb (headersSent (res (snd f)))
    then res_status_json 500%Z internal_server_error f
    else ret tt f.

(** The [try] block up to its first [await]. *)
Definition try_block_start (construct : Outcome) : M Frame value unit :=
  transport <- new_StreamableHTTPServerTransport None construct ;;
  set_onerror transport ;;
  res_on_close (CloseTransport transport) ;;
  mcpServer_connect transport.

(** Resuming after an [await]: a rejection is thrown at the [await]. *)
Definition resume (settled : Outcome) (rest : M Frame value unit) : M Frame value unit :=
  match settled with
  | Normal _ => rest
  | Throw err => throw err
  end.

(** One stretch of the route's [try { ... } catch (err) { ... }] between two
    suspension points; when it ends without a new [await], the function has
    returned. An exception that leaves the [catch] block escapes the route. *)
Definition run_stretch (m : M Frame value unit) (f : Frame) : Frame :=
  let '(s, c) := f in
  let '(r, (s', c')) := try_catch m catch_block (s, goto Returned c) in
  match r with
  | Normal _ => (s', c')
  | Throw e => (escape e s', c')
  end.

Definition fresh_response : Response :=
  {| headersSent := false; statusCode := 200%Z; sent := None; closed := false;
     closeListeners := [] |}.

(** One more [close()] call seen by a transport. *)
Definition bump (tr : Transport) : Transport :=
  {| sessionIdGenerator := sessionIdGenerator tr; onerror := onerror tr;
     closeCalls := S (closeCalls tr) |}.

(** [transport.close()], as the listener calls it: [close] is an [async]
    method of the SDK's transport, so the call reaches the session and
    returns a promise; it never throws. *)
Definition transport_close (t : nat) : M Server value unit :=
  fun s => (Normal tt, with_transports (alter bump t (transports s)) s).

(** The close listener:
    [try { transport.close() } catch (err) { logger.error(...) }]. The
    promise that [close()] returns is not awaited. *)
Definition on_close (l : Listener) : M Server value unit :=
  match l with
  | CloseTransport t =>
      try_catch (transport_close t)
        (fun err => logger_error "Error closing Streamable HTTP transport" err)
  end.

(** A promise that nobody awaits settles: its rejection is unhandled. *)
Definition settle_dropped (o : Outcome) (s : Server) : Server :=
  match o with
  | Normal _ => s
  | Throw err => escape err s
  end.

(** Emitting ['close'] on a response: every listener runs, in registration
    order; an exception thrown by a listener escapes to the event loop;
    [o] is how the promise of the listener's [close()] call settles. *)
Definition emit_close (ls : list Listener) (o : Outcome) (s : Server) : Server :=
  foldl (fun s l =>
           match on_close l s with
           | (Normal _, s') => settle_dropped o s'
           | (Throw e, s') => escape e s'
           end) s ls.

(** What happens to the process, one event-loop turn at a time. *)
Inductive Event :=
| Post (payload : value) (construct : Outcome)     (* a [POST /mcp] arrives *)
| ConnectSettles (c : nat) (o : Outcome)           (* the [connect] promise settles *)
| TransportWrites (c : nat) (status : Z)           (* the session starts the response,
                                                      with the status it chooses *)
| HandleRequestSettles (c : nat) (o : Outcome)     (* the [handleRequest] promise settles *)
| ResClose (c : nat) (o : Outcome).                (* the response stream of [c] closes;
                                                      [o]: how the promise of
                                                      [transport.close()] settles *)

(** The response stream of a call has closed. *)
Definition close_response (call : Call) : Call :=
  with_res {| headersSent := headersSent (res call); statusCode := statusCode (res call);
              sent := sent (res call); closed := true;
              closeListeners := closeListeners (res call) |} call.

Definition store (c : nat) (f : Frame) : Server :=
  with_calls (<[c := snd f]> (calls (fst f))) (fst f).

(** One turn. [None]: the event cannot happen in this state (a promise
    settles once, at its [await]; a stream closes at most once). *)
Definition step (s : Server) (ev : Event) : option Server :=
  match ev with
  | Post payload construct =>
      let c := {| pc := Returned; body := payload; res := fresh_response;
                  transport := None; history := [] |} in
      let '(s', c') := run_stretch (try_block_start construct) (s, c) in
      Some (with_calls (calls s' ++ [c']) s')
  | ConnectSettles c o =>
      call ← calls s !! c;
      match pc call with
      | AwaitConnect => Some (store c (run_stretch (resume o transport_handleRequest) (s, call)))
      | _ => None
      end
  | TransportWrites c status =>
      call ← calls s !! c;
      match pc call with
      | AwaitHandleRequest =>
          let r := res call in
          Some (store c (s, with_res {| headersSent := true; statusCode := status;
                                        sent := sent r; closed := closed r;
                                        closeListeners := closeListeners r |} call))
      | _ => None
      end
  | HandleRequestSettles c o =>
      call ← calls s !! c;
      match pc call with
      | AwaitHandleRequest => Some (store c (run_stretch (resume o (ret tt)) (s, call)))
      | _ => None
      end
  | ResClose c o =>
      call ← calls s !! c;
      if closed (res call) then None
      else Some (emit_close (closeListeners (res call)) o (store c (s, close_response call)))
  end.

Fixpoint run (s : Server) (evs : list Event) : option Server :=
  match evs with
  | [] => Some s
  | ev :: rest => s' ← step s ev; run s' rest
  end.

(** The states the process can be in. *)
Inductive reachable : Server -> Prop :=
| reachable_init : reachable init
| reachable_step s ev s' : reachable s -> step s ev = Some s' -> reachable s'.

(** ** Vocabulary of the properties *)

Section DispatcherVocabulary.

Context {World : Type}.
Variable this : AutotaskMcpServer (World := World).

(** The value thrown by the capability handler that serves [r], when it is
    called in world [w] and fails. *)
Definition handler_failure (r : Request) (w : World) : option value :=
  let thrown {A} (c : Completion value A * World) : option value :=
    match fst c with
    | Throw e => Some e
    | Normal _ => None
    end in
  match r with
  | list_resources => thrown (listResources (resourceHandler this) w)
  | read_resource uri => thrown (readResource (resourceHandler this) uri w)
  | list_tools => thrown (listTools (toolHandler this) w)
  | call_tool name arguments =>
      thrown (callTool (toolHandler this) name (js_or arguments (JObj [])) w)
  end.

End DispatcherVocabulary.

(** The fixed prefix that names the failed operation (section 4.1 of the
    specification). *)
Definition operation_prefix (r : Request) : string :=
  match r with
  | list_resources => "Failed to list resources: "
  | read_resource _ => "Failed to read resource: "
  | list_tools => "Failed to list tools: "
  | call_tool _ _ => "Failed to call tool: "
  end.

(** The specification's words, "the original message text when available":
    the text a thrown value carries as its message, be it an [Error] or an
    object with a textual [message] property. *)
Definition message_text (e : value) : option string :=
  match e with
  | JError m => Some m
  | JObj props =>
      match get_prop "message" props with
      | JStr m => Some m
      | _ => None
      end
  | _ => None
  end.

(** Handlers used as concrete inputs: every operation rejects with [e]. *)
Definition rejecting (e : value) : AutotaskMcpServer (World := unit) :=
  {| resourceHandler :=
       {| listResources := fun w => (Throw e, w);
          readResource := fun _ w => (Throw e, w) |};
     toolHandler :=
       {| listTools := fun w => (Throw e, w);
          callTool := fun _ _ w => (Throw e, w) |} |}.

(** Handlers that resolve: fixed descriptors, and a tool that echoes its
    arguments and reports through [isError] whether its name is unknown. *)
Definition resolving : AutotaskMcpServer (World := unit) :=
  {| resourceHandler :=
       {| listResources := fun w => (Normal [JStr "autotask://companies"], w);
          readResource := fun uri w => (Normal (JObj [("uri", JStr uri)]), w) |};
     toolHandler :=
       {| listTools := fun w => (Normal [JStr "test_connection"], w);
          callTool := fun name args w =>
            (Normal {| content := JArr [args];
                       isError := JBool (negb (String.eqb name "test_connection")) |}, w) |} |}.

Definition idle : State (World := unit) := {| world := tt; log := []; received := [] |}.

(** The five steps of the [try] block, in program order. *)
Definition try_steps (b : value) : list Action :=
  [ANew None; ASetOnError; AOnClose; AConnect; AHandleRequest b].

Definition is_step (a : Action) : bool :=
  match a with
  | ANew _ | ASetOnError | AOnClose | AConnect | AHandleRequest _ => true
  | ALogError _ | AStatusJson _ _ => false
  end.

(** How many times the session at address [t] has been torn down. *)
Definition teardowns (s : Server) (t : nat) : nat :=
  match transports s !! t with
  | Some tr => closeCalls tr
  | None => 0
  end.

(** The response and the record of call [c]; before the call exists, an
    untouched response and an empty record. *)
Definition response_of (s : Server) (c : nat) : Response :=
  match calls s !! c with
  | Some call => res call
  | None => fresh_response
  end.

Definition history_of (s : Server) (c : nat) : list Action :=
  match calls s !! c with
  | Some call => history call
  | None => []
  end.

(** The call in which a step of the [try] block fails at this turn, with
    the thrown value: the constructor throws in a new call, or an awaited
    promise rejects. *)
Definition failing (s : Server) (ev : Event) : option (nat * value) :=
  match ev with
  | Post _ (Throw err) => Some (length (calls s), err)
  | ConnectSettles c (Throw err) => Some (c, err)
  | HandleRequestSettles c (Throw err) => Some (c, err)
  | _ => None
  end.

(** What the [catch] block did in a record. *)
Definition catch_actions (h : list Action) : list Action :=
  List.filter (fun a => negb (is_step a)) h.

Definition failure_logged (err : value) : LogEntry :=
  {| level := Err; text := "Failed to handle MCP request"; data := Some err |}.

(** The rejection that a settled promise leaves, if any. *)
Definition rejection (o : Outcome) : list value :=
  match o with
  | Normal _ => []
  | Throw err => [err]
  end.

(** What the [catch] block leaves in the record of a call. *)
Inductive caught : list Action -> Prop :=
| caught_logged : caught [ALogError "Failed to handle MCP request"]
| caught_answered :
    caught [ALogError "Failed to handle MCP request";
            AStatusJson 500%Z internal_server_error].

(** Where a call can be: its suspension point, whether it holds a
    session, and what it has done so far. *)
Inductive progress (b : value) : Pc -> option nat -> list Action -> Prop :=
| progress_construct_failed k :
    caught k -> progress b Returned None (ANew None :: k)
| progress_connecting t :
    progress b AwaitConnect (Some t) (take 4 (try_steps b))
| progress_connect_failed t k :
    caught k -> progress b Returned (Some t) (take 4 (try_steps b) ++ k)
| progress_handling t :
    progress b AwaitHandleRequest (Some t) (try_steps b)
| progress_handle_failed t k :
    caught k -> progress b Returned (Some t) (try_steps b ++ k)
| progress_returned t :
    progress b Returned (Some t) (try_steps b).

(** The session of a call: its close hook is the only listener of the
    response, and the session has been closed once if the response stream
    has closed, and not at all before. *)
Definition session_inv (s : Server) (call : Call) : Prop :=
  match transport call with
  | None => closeListeners (res call) = []
  | Some t =>
      closeListeners (res call) = [CloseTransport t] /\
      exists tr, transports s !! t = Some tr /\
                 sessionIdGenerator tr = None /\
                 onerror tr = true /\
                 closeCalls tr = if closed (res call) then 1 else 0
  end.

Record inv (s : Server) : Prop := {
  inv_progress : forall c call, calls s !! c = Some call ->
    progress (body call) (pc call) (transport call) (history call);
  inv_session : forall c call, calls s !! c = Some call -> session_inv s call;
  inv_unshared : forall c1 c2 call1 call2 t,
    calls s !! c1 = Some call1 -> calls s !! c2 = Some call2 ->
    transport call1 = Some t -> transport call2 = Some t -> c1 = c2 }.

(** Sample states: one call suspended at [connect]; one call whose
    session has started the response and is still processing. *)
Definition connecting : Server :=
  Eval vm_compute in default init (run init [Post (JStr "ping") (Normal tt)]).


(** Two calls; the second one fails to connect, is answered with the
    synthesized error, and its teardown fails when its stream closes. *)
Definition refused_turns : list Event :=
  [Post (JStr "a") (Normal tt); Post (JStr "b") (Normal tt);
   ConnectSettles 1 (Throw (JError "refused"));
   ResClose 1 (Throw (JError "already closed"))].

Definition refused : Server := Eval vm_compute in default init (run init refused_turns).


(** ** Vocabulary of the further dispatcher properties *)

Section DispatcherObservations.

Context {World : Type}.
Variable this : AutotaskMcpServer (World := World).

(** The world as the capability handler that serves [r] leaves it. *)
Definition handler_world (r : Request) (w : World) : World :=
  match r with
  | list_resources => snd (listResources (resourceHandler this) w)
  | read_resource uri => snd (readResource (resourceHandler this) uri w)
  | list_tools => snd (listTools (toolHandler this) w)
  | call_tool name arguments =>
      snd (callTool (toolHandler this) name (js_or arguments (JObj [])) w)
  end.

End DispatcherObservations.

(** The call a request makes on its capability handler. *)
Definition invocation_of (r : Request) : Invocation :=
  match r with
  | list_resources => InvListResources
  | read_resource uri => InvReadResource uri
  | list_tools => InvListTools
  | call_tool name arguments => InvCallTool name (js_or arguments (JObj []))
  end.

(** A tool handler that records nothing and echoes what it was given. *)
Definition echoing : AutotaskMcpServer (World := unit) :=
  {| resourceHandler :=
       {| listResources := fun w => (Normal [], w);
          readResource := fun _ w => (Throw JNull, w) |};
     toolHandler :=
       {| listTools := fun w => (Normal [], w);
          callTool := fun _ args w =>
            (Normal {| content := args; isError := JBool false |}, w) |} |}.

(** ** The process: entry point, signal handlers, life cycle of the dispatcher *)

(** [a && b] *)
Definition js_and (a b : value) : value := if truthy a then b else a.

(** [!a] *)
Definition js_not (a : value) : value := JBool (negb (truthy a)).

(** [a ?? b] *)
Definition js_nullish (a b : value) : value :=
  match a with
  | JUndefined | JNull => b
  | _ => a
  end.

(** [process.env.KEY]: a string when the variable is set. *)
Definition env_var (o : option string) : value :=
  match o with
  | Some s => JStr s
  | None => JUndefined
  end.

Inductive Signal := SIGINT | SIGTERM.

Inductive RequestSchema :=
| ListResourcesRequestSchema
| ReadResourceRequestSchema
| ListToolsRequestSchema
| CallToolRequestSchema.

(** Why a computation stops early: a value is thrown (a promise rejects),
    or [process.exit(code)] ends the process. *)
Inductive Halt := Thrown (e : value) | Exited (code : Z).

(** The fields of the environment configuration and of [McpServerConfig] that
    the entry point reads (the declarations of both types are not part of the
    sources); a credential is a string or [undefined]. *)
Record EnvironmentConfig := { logging_level : string; logging_format : string }.

Record AutotaskCredentials := {
  username : value;
  secret : value;
  integrationCode : value }.

Record McpServerConfig := {
  config_name : string;
  config_version : string;
  autotask : AutotaskCredentials }.

(** What the process does to the outside, in order. *)
Inductive Effect :=
| ELog (entry : LogEntry)                    (* [logger.<level>(text, data?)] *)
| EConsoleError (text : string) (err : value) (* [console.error(text, ..., err)] *)
| ENewLogger (lvl fmt : string)              (* [new Logger(level, format)] *)
| ENewAutotaskService                        (* [new AutotaskService(config, logger)] *)
| ESetRequestHandler (schema : RequestSchema) (* [server.setRequestHandler(schema, ...)] *)
| ECreateHttpServer                          (* [createHttpServer(mcpCoreServer, logger)] *)
| EListen (port host : value)                (* [app.listen(port, host, ...)] returned *)
| EProcessOn (sig : Signal)                  (* [process.on(sig, ...)] *)
| EHttpServerClose                           (* [httpServer.close()] *)
| ENewStdioServerTransport                   (* [new StdioServerTransport()] *)
| ESetOnError                                (* [this.server.onerror = ...] *)
| ESetOnInitialized                          (* [this.server.oninitialized = ...] *)
| EServerConnect                             (* [this.server.connect(transport)] *)
| EServerClose.                              (* [this.server.close()] *)

(** The process: the [logger] variable of [main] (set once the logger
    exists), what has been done so far, and the exit code once exited. *)
Record Process := {
  loggerVar : bool;
  effects : list Effect;
  exited : option Z }.

Definition booted : Process := {| loggerVar := false; effects := []; exited := None |}.

(** What the collaborators of one run do: the configuration loaders, the
    service constructor, the environment variables, [Number], and
    [app.listen], which returns the HTTP server or throws (as it does for a
    port out of range). *)
Record Host := {
  loadEnvironmentConfig : Completion value EnvironmentConfig;
  mergeWithMcpConfig : EnvironmentConfig -> Completion value McpServerConfig;
  new_AutotaskService : Outcome;
  PORT : option string;
  HOST : option string;
  Number : value -> value;
  app_listen : value -> value -> Outcome }.

Definition effect (e : Effect) : M Process Halt unit :=
  fun p =>
    (Normal tt,
     {| loggerVar := loggerVar p; effects := effects p ++ [e]; exited := exited p |}).

(** A call into a collaborator returns or throws. *)
Definition settle {A} (c : Completion value A) : M Process Halt A :=
  fun p =>
    match c with
    | Normal a => (Normal a, p)
    | Throw e => (Throw (Thrown e), p)
    end.

(** [process.exit(code)] *)
Definition exit {A} (code : Z) : M Process Halt A := throw (Exited code).

(** [try { body } catch (error) { handler }]: only thrown values are caught. *)
Definition try_catch_js {A} (body : M Process Halt A) (handler : value -> M Process Halt A)
  : M Process Halt A :=
  fun p =>
    match body p with
    | (Throw (Thrown e), p') => handler e p'
    | r => r
    end.

Definition logger_call (lvl : Level) (msg : string) (d : option value) : M Process Halt unit :=
  effect (ELog {| level := lvl; text := msg; data := d |}).

(** [logger = new Logger(level, format)] *)
Definition new_Logger (lvl fmt : string) : M Process Halt unit :=
  effect (ENewLogger lvl fmt) ;;
  fun p => (Normal tt, {| loggerVar := true; effects := effects p; exited := exited p |}).

Definition newline : string := String (Ascii.ascii_of_nat 10) EmptyString.

Definition missing_credentials : string :=
  "Missing required Autotask credentials." +:+ newline
  +:+ "Please set AUTOTASK_USERNAME, AUTOTASK_SECRET, and AUTOTASK_INTEGRATION_CODE environment variables.".

(** [AutotaskMcpServer.setupHandlers], as the process sees it. *)
Definition setupHandlers : M Process Halt unit :=
  logger_call Info "Setting up MCP request handlers..." None ;;
  effect (ESetRequestHandler ListResourcesRequestSchema) ;;
  effect (ESetRequestHandler ReadResourceRequestSchema) ;;
  effect (ESetRequestHandler ListToolsRequestSchema) ;;
  effect (ESetRequestHandler CallToolRequestSchema) ;;
  logger_call Info "MCP request handlers set up successfully" None.

(** [new AutotaskMcpServer(config, logger)]: the SDK server object and the
    two handlers are plain allocations; the service constructor is a
    collaborator; then the request handlers are installed. *)
Definition new_AutotaskMcpServer (h : Host) : M Process Halt unit :=
  effect ENewAutotaskService ;;
  settle (new_AutotaskService h) ;;
  setupHandlers.

(** [AutotaskMcpServer.start]; [connect]: how [this.server.connect] settles. *)
Definition start (connect : Outcome) : M Process Halt unit :=
  logger_call Info "Starting Autotask MCP Server..." None ;;
  effect ENewStdioServerTransport ;;
  effect ESetOnError ;;
  effect ESetOnInitialized ;;
  effect EServerConnect ;;
  settle connect ;;
  logger_call Info "Autotask MCP Server started and connected to stdio transport" None.

(** The two callbacks [start] installs on the SDK server. *)
Definition server_onerror (error : value) : M Process Halt unit :=
  logger_call Err "MCP Server error:" (Some error).

Definition server_oninitialized : M Process Halt unit :=
  logger_call Info "MCP Server initialized and ready to serve requests" None.

(** [AutotaskMcpServer.stop]; [close]: how [this.server.close] settles. *)
Definition stop (close : Outcome) : M Process Halt unit :=
  logger_call Info "Stopping Autotask MCP Server..." None ;;
  effect EServerClose ;;
  settle close ;;
  logger_call Info "Autotask MCP Server stopped" None.

(** The body of [main]. *)
Definition main (h : Host) : M Process Halt unit :=
  try_catch_js
    (envConfig <- settle (loadEnvironmentConfig h) ;;
     mcpConfig <- settle (mergeWithMcpConfig h envConfig) ;;
     new_Logger (logging_level envConfig) (logging_format envConfig) ;;
     logger_call Info "Starting Autotask MCP Server (Streamable HTTP)..." None ;;
     let a := autotask mcpConfig in
     logger_call Debug "Configuration loaded"
       (Some (JObj [("serverName", JStr (config_name mcpConfig));
                    ("serverVersion", JStr (config_version mcpConfig));
                    ("hasCredentials",
                     js_not (js_not (js_and (js_and (username a) (secret a))
                                            (integrationCode a))))])) ;;
     (if truthy (js_or (js_or (js_not (username a)) (js_not (secret a)))
                       (js_not (integrationCode a)))
      then throw (Thrown (JError missing_credentials))
      else ret tt) ;;
     new_AutotaskMcpServer h ;;
     effect ECreateHttpServer ;;
     let port := Number h (js_nullish (env_var (PORT h)) (JNum 3000)) in
     let host := js_nullish (env_var (HOST h)) (JStr "0.0.0.0") in
     settle (app_listen h port host) ;;
     effect (EListen port host) ;;
     effect (EProcessOn SIGINT) ;;
     effect (EProcessOn SIGTERM))
    (fun error =>
       (fun p =>
          if loggerVar p
          then logger_call Err "Failed to start Autotask MCP Server:" (Some error) p
          else effect (EConsoleError "Failed to start Autotask MCP Server:" error) p) ;;
       exit 1).

(** The handlers registered with [process.on('SIGINT' | 'SIGTERM', ...)];
    [close]: how the dispatcher's [this.server.close] settles. *)
Definition on_signal (sig : Signal) (close : Outcome) : M Process Halt unit :=
  logger_call Info
    match sig with
    | SIGINT => "Received SIGINT, shutting down gracefully..."
    | SIGTERM => "Received SIGTERM, shutting down gracefully..."
    end None ;;
  effect EHttpServerClose ;;
  stop close ;;
  exit 0.

(** [process.on('unhandledRejection', ...)] *)
Definition unhandledRejection (reason : value) : M Process Halt unit :=
  effect (EConsoleError "Unhandled Rejection at:" reason) ;;
  exit 1.

(** [process.on('uncaughtException', ...)] *)
Definition uncaughtException (error : value) : M Process Halt unit :=
  effect (EConsoleError "Uncaught Exception:" error) ;;
  exit 1.

(** The process after a turn of the event loop has run [m]: an exit is
    final. *)
Definition turn (m : M Process Halt unit) (p : Process) : Process :=
  match m p with
  | (Throw (Exited c), p') =>
      {| loggerVar := loggerVar p'; effects := effects p'; exited := Some c |}
  | (_, p') => p'
  end.

(** [main().catch((error) => { console.error(...); process.exit(1) })]: a
    rejection that nothing handles goes to [unhandledRejection]. *)
Definition program (h : Host) : Process :=
  turn (try_catch_js
          (try_catch_js (main h)
             (fun error =>
                effect (EConsoleError "Failed to start server:" error) ;;
                exit 1))
          unhandledRejection)
       booted.

Definition registered (sig : Signal) (e : Effect) : bool :=
  match e, sig with
  | EProcessOn SIGINT, SIGINT | EProcessOn SIGTERM, SIGTERM => true
  | _, _ => false
  end.

(** A signal arrives. [None]: the process has exited, or has no handler for
    the signal. The handler is an [async] function: when it rejects, the
    rejection is unhandled. *)
Definition deliver (sig : Signal) (close : Outcome) (p : Process) : option Process :=
  match exited p with
  | Some _ => None
  | None =>
      if existsb (registered sig) (effects p)
      then Some (turn (try_catch_js (on_signal sig close) unhandledRejection) p)
      else None
  end.

(** ** Vocabulary of the process properties *)

(** The configuration [main] gets, when both loaders return. *)
Definition loaded_config (h : Host) : option (EnvironmentConfig * McpServerConfig) :=
  match loadEnvironmentConfig h with
  | Normal envConfig =>
      match mergeWithMcpConfig h envConfig with
      | Normal mcpConfig => Some (envConfig, mcpConfig)
      | Throw _ => None
      end
  | Throw _ => None
  end.

(** The value a loader throws. *)
Definition loader_failure (h : Host) : option value :=
  match loadEnvironmentConfig h with
  | Normal envConfig =>
      match mergeWithMcpConfig h envConfig with
      | Normal _ => None
      | Throw e => Some e
      end
  | Throw e => Some e
  end.

(** All three credentials are present and not empty. *)
Definition has_credentials (cfg : McpServerConfig) : bool :=
  truthy (username (autotask cfg)) && truthy (secret (autotask cfg))
  && truthy (integrationCode (autotask cfg)).

(** The port and the host that [main] passes to [app.listen]. *)
Definition listen_port (h : Host) : value :=
  Number h (js_nullish (env_var (PORT h)) (JNum 3000)).

Definition listen_host (h : Host) : value :=
  js_nullish (env_var (HOST h)) (JStr "0.0.0.0").





Definition constructed_services (es : list Effect) : nat :=
  length (List.filter (fun e => match e with ENewAutotaskService => true | _ => false end) es).

(** A host whose loaders return [cfg], whose service constructor returns,
    and which leaves [PORT] and [HOST] unset; [Number] as on numbers. *)
Definition host_with (cfg : McpServerConfig) : Host :=
  {| loadEnvironmentConfig := Normal {| logging_level := "info"; logging_format := "json" |};
     mergeWithMcpConfig := fun _ => Normal cfg;
     new_AutotaskService := Normal tt;
     PORT := None;
     HOST := None;
     Number := fun v => v;
     app_listen := fun _ _ => Normal tt |}.

Definition configured : McpServerConfig :=
  {| config_name := "autotask-mcp"; config_version := "1.0.0";
     autotask := {| username := JStr "api@example.com"; secret := JStr "s3cret";
                    integrationCode := JStr "CODE" |} |}.

Definition without_secret : McpServerConfig :=
  {| config_name := "autotask-mcp"; config_version := "1.0.0";
     autotask := {| username := JStr "api@example.com"; secret := JStr "";
                    integrationCode := JStr "CODE" |} |}.

(** What [main] does first once the configuration is loaded. *)
Definition starting_lines (envConfig : EnvironmentConfig) (cfg : McpServerConfig)
  : list Effect :=
  [ENewLogger (logging_level envConfig) (logging_format envConfig);
   ELog {| level := Info; text := "Starting Autotask MCP Server (Streamable HTTP)...";
           data := None |};
   ELog {| level := Debug; text := "Configuration loaded";
           data := Some (JObj [("serverName", JStr (config_name cfg));
                               ("serverVersion", JStr (config_version cfg));
                               ("hasCredentials", JBool (has_credentials cfg))]) |}].

(** What the constructor of the dispatcher does when the service
    constructor returns. *)
Definition setup_lines : list Effect :=
  [ENewAutotaskService;
   ELog {| level := Info; text := "Setting up MCP request handlers..."; data := None |};
   ESetRequestHandler ListResourcesRequestSchema;
   ESetRequestHandler ReadResourceRequestSchema;
   ESetRequestHandler ListToolsRequestSchema;
   ESetRequestHandler CallToolRequestSchema;
   ELog {| level := Info; text := "MCP request handlers set up successfully";
           data := None |}].

(** The report of the [catch] block of [main] on the logger. *)
Definition start_failure (e : value) : Effect :=
  ELog {| level := Err; text := "Failed to start Autotask MCP Server:"; data := Some e |}.

(** What a signal handler does before it waits for the dispatcher to close. *)
Definition shutdown_lines (sig : Signal) : list Effect :=
  [ELog {| level := Info;
           text := match sig with
                   | SIGINT => "Received SIGINT, shutting down gracefully..."
                   | SIGTERM => "Received SIGTERM, shutting down gracefully..."
                   end;
           data := None |};
   EHttpServerClose;
   ELog {| level := Info; text := "Stopping Autotask MCP Server..."; data := None |};
   EServerClose].

(** ** Vocabulary of the further adapter properties *)


Definition is_answer (a : Action) : bool :=
  match a with
  | AStatusJson _ _ => true
  | _ => false
  end.

(** What the route itself has written on the response of a call: nothing,
    and then the record holds no write; or the internal-error envelope with
    status 500, as the last act of a call that has returned. *)
Definition answer_inv (call : Call) : Prop :=
  match sent (res call) with
  | None =>
      forall status payload, ~ In (AStatusJson status payload) (history call)
  | Some payload =>
      payload = internal_server_error /\
      statusCode (res call) = 500%Z /\
      headersSent (res call) = true /\
      pc call = Returned /\
      last (history call) = Some (AStatusJson 500%Z internal_server_error)
  end.

(** ** Properties of the dispatcher *)

Section DispatcherProperties.

Context {World : Type}.
Variable this : AutotaskMcpServer (World := World).

(** Every handler failure is caught and rethrown as an [McpError] with the
    internal-error code and the operation's prefix followed by [cause]. *)
Lemma dispatch_failure (r : Request) (st : State) (e : value) :
  handler_failure this r (world st) = Some e ->
  fst (dispatch this r st)
  = Throw (new_McpError InternalError (operation_prefix r +:+ cause e)).
Proof.
  destruct r as [|uri| |name arguments]; cbn;
    unfold handleListResources, handleReadResource, handleListTools, handleCallTool,
      try_catch, bind, await, logger; cbn;
    match goal with
    | |- context [?op (world st)] => destruct (op (world st)) as [[a|e'] w]
    end; cbn; intros H; inversion H; subst; reflexivity.
Qed.

(** A handler that resolves makes the dispatcher return normally. *)
Lemma handleCallTool_resolves (name : string) (arguments : value) (st : State)
      (result : McpToolResult) (w : World) :
  callTool (toolHandler this) name (js_or arguments (JObj [])) (world st)
  = (Normal result, w) ->
  fst (handleCallTool this name arguments st)
  = Normal (JObj [("content", content result); ("isError", isError result)]).
Proof.
  intros H. unfold handleCallTool, try_catch, bind, await, logger. cbn.
  rewrite H. reflexivity.
Qed.

End DispatcherProperties.

(** C1, as amended: for each of the four request kinds and every value the
    invoked capability handler throws, the dispatcher throws a protocol error
    with code -32603 whose message is "MCP error -32603: " (put there by the
    SDK's error constructor), then the operation's fixed prefix, then the
    thrown value's message when that value is an instance of [Error], and
    exactly "Unknown error" otherwise. *)
Theorem handler_failure_normalized {World : Type}
        (this : AutotaskMcpServer (World := World))
        (r : Request) (st : State) (e : value) :
  handler_failure this r (world st) = Some e ->
  exists suffix,
    fst (dispatch this r st)
    = Throw {| code := (-32603)%Z;
               message := "MCP error -32603: " +:+ operation_prefix r +:+ suffix |} /\
    (forall m, e = JError m -> suffix = m) /\
    (instanceof_Error e = false -> suffix = "Unknown error").
Proof.
  intros H. exists (cause e). split; [exact (dispatch_failure this r st e H)|].
  split.
  - intros m ->. reflexivity.
  - destruct e; cbn; intros Hn; try reflexivity. discriminate Hn.
Qed.

Lemma handler_failure_normalized_witness :
  handler_failure (rejecting (JError "boom")) (read_resource "autotask://tickets/7")
                  (world idle) = Some (JError "boom") /\
  exists suffix,
    fst (dispatch (rejecting (JError "boom")) (read_resource "autotask://tickets/7") idle)
    = Throw {| code := (-32603)%Z;
               message := "MCP error -32603: "
                          +:+ operation_prefix (read_resource "autotask://tickets/7")
                          +:+ suffix |} /\
    (forall m, JError "boom" = JError m -> suffix = m) /\
    (instanceof_Error (JError "boom") = false -> suffix = "Unknown error").
Proof.
  split; [reflexivity|].
  apply (handler_failure_normalized (rejecting (JError "boom"))
           (read_resource "autotask://tickets/7") idle (JError "boom")).
  reflexivity.
Defined.

(** C1, as stated, fails: a handler may throw a plain object whose [message]
    property holds text; that text is available, yet the dispatcher's message
    ends in "Unknown error". *)
Lemma available_message_text_not_forwarded :
  ~ (forall (this : AutotaskMcpServer (World := unit)) (r : Request) (st : State)
            (e : value),
        handler_failure this r (world st) = Some e ->
        fst (dispatch this r st)
        = Throw {| code := (-32603)%Z;
                   message := operation_prefix r
                              +:+ default "Unknown error" (message_text e) |}).
Proof.
  intros H.
  specialize (H (rejecting (JObj [("message", JStr "boom")])) list_resources idle
                (JObj [("message", JStr "boom")]) eq_refl).
  cbv in H. discriminate H.
Qed.

(** C4: a successful handler call is answered with exactly the shape of its
    request kind: [{resources}], [{contents: [item]}], [{tools}], and
    [{content, isError}] with both fields of the tool result as returned. *)
Theorem success_shapes {World : Type} (this : AutotaskMcpServer (World := World))
        (st : State) :
  (forall resources w,
      listResources (resourceHandler this) (world st) = (Normal resources, w) ->
      fst (dispatch this list_resources st)
      = Normal (JObj [("resources", JArr resources)])) /\
  (forall uri item w,
      readResource (resourceHandler this) uri (world st) = (Normal item, w) ->
      fst (dispatch this (read_resource uri) st)
      = Normal (JObj [("contents", JArr [item])])) /\
  (forall tools w,
      listTools (toolHandler this) (world st) = (Normal tools, w) ->
      fst (dispatch this list_tools st) = Normal (JObj [("tools", JArr tools)])) /\
  (forall name arguments result w,
      callTool (toolHandler this) name (js_or arguments (JObj [])) (world st)
      = (Normal result, w) ->
      fst (dispatch this (call_tool name arguments) st)
      = Normal (JObj [("content", content result); ("isError", isError result)])).
Proof.
  repeat split; intros; cbn;
    unfold handleListResources, handleReadResource, handleListTools, handleCallTool,
      try_catch, bind, await, logger; cbn;
    match goal with H : _ = (Normal _, _) |- _ => rewrite H end; reflexivity.
Qed.

Lemma success_shapes_witness :
  fst (dispatch resolving list_resources idle)
  = Normal (JObj [("resources", JArr [JStr "autotask://companies"])]) /\
  fst (dispatch resolving (read_resource "autotask://companies/3") idle)
  = Normal (JObj [("contents", JArr [JObj [("uri", JStr "autotask://companies/3")]])]) /\
  fst (dispatch resolving list_tools idle)
  = Normal (JObj [("tools", JArr [JStr "test_connection"])]) /\
  fst (dispatch resolving (call_tool "test_connection" (JObj [("q", JNum 1)])) idle)
  = Normal (JObj [("content", JArr [JObj [("q", JNum 1)]]); ("isError", JBool false)]).
Proof.
  destruct (success_shapes resolving idle) as (H1 & H2 & H3 & H4).
  split; [exact (H1 _ tt eq_refl)|].
  split; [exact (H2 "autotask://companies/3" _ tt eq_refl)|].
  split; [exact (H3 _ tt eq_refl)|].
  exact (H4 "test_connection" (JObj [("q", JNum 1)]) _ tt eq_refl).
Defined.

(** C5: a tool result with [isError: true] comes back as a normal return
    value carrying [content] and [isError] as they are; the dispatcher throws
    no protocol error for it. *)
Theorem tool_reported_failure_is_success {World : Type}
        (this : AutotaskMcpServer (World := World))
        (name : string) (arguments : value) (st : State)
        (result : McpToolResult) (w : World) :
  callTool (toolHandler this) name (js_or arguments (JObj [])) (world st)
  = (Normal result, w) ->
  isError result = JBool true ->
  fst (dispatch this (call_tool name arguments) st)
  = Normal (JObj [("content", content result); ("isError", JBool true)]) /\
  forall err : McpError, fst (dispatch this (call_tool name arguments) st) <> Throw err.
Proof.
  intros H Htrue. cbn [dispatch].
  rewrite (handleCallTool_resolves this name arguments st result w H), Htrue.
  split; [reflexivity | discriminate].
Qed.

Lemma tool_reported_failure_is_success_witness :
  callTool (toolHandler resolving) "no_such_tool" (js_or JUndefined (JObj [])) (world idle)
  = (Normal {| content := JArr [JObj []]; isError := JBool true |}, tt) /\
  isError {| content := JArr [JObj []]; isError := JBool true |} = JBool true /\
  fst (dispatch resolving (call_tool "no_such_tool" JUndefined) idle)
  = Normal (JObj [("content", JArr [JObj []]); ("isError", JBool true)]) /\
  forall err : McpError,
    fst (dispatch resolving (call_tool "no_such_tool" JUndefined) idle) <> Throw err.
Proof.
  split; [reflexivity|]. split; [reflexivity|].
  exact (tool_reported_failure_is_success resolving "no_such_tool" JUndefined idle
           {| content := JArr [JObj []]; isError := JBool true |} tt eq_refl eq_refl).
Defined.

(** C6, as amended: when the Tool Handler's list operation fails, the
    dispatcher's protocol error message is
    "MCP error -32603: Failed to list tools: " followed by the thrown
    [Error]'s message, or by "Unknown error" when the thrown value is not an
    [Error]; it is never the bare "Failed to list tools". *)
Theorem list_tools_failure_message {World : Type}
        (this : AutotaskMcpServer (World := World)) (st : State) (e : value) :
  handler_failure this list_tools (world st) = Some e ->
  fst (handleListTools this st)
  = Throw {| code := (-32603)%Z;
             message := "MCP error -32603: Failed to list tools: "
                        +:+ match e with
                            | JError m => m
                            | _ => "Unknown error"
                            end |} /\
  forall err, fst (handleListTools this st) = Throw err ->
              message err <> "Failed to list tools".
Proof.
  intros H. pose proof (dispatch_failure this list_tools st e H) as Hd.
  cbn [dispatch operation_prefix] in Hd. rewrite Hd. split.
  - destruct e; reflexivity.
  - intros err [= <-]. cbn. discriminate.
Qed.

Lemma list_tools_failure_message_witness :
  handler_failure (rejecting (JError "timeout")) list_tools (world idle)
  = Some (JError "timeout") /\
  fst (handleListTools (rejecting (JError "timeout")) idle)
  = Throw {| code := (-32603)%Z;
             message := "MCP error -32603: Failed to list tools: timeout" |} /\
  forall err, fst (handleListTools (rejecting (JError "timeout")) idle) = Throw err ->
              message err <> "Failed to list tools".
Proof.
  split; [reflexivity|].
  exact (list_tools_failure_message (rejecting (JError "timeout")) idle
           (JError "timeout") eq_refl).
Defined.

(** C6, as stated, fails: with a Tool Handler whose list operation rejects
    with [new Error("timeout")], the message is "Failed to list tools: timeout". *)
Lemma list_tools_failure_message_not_literal :
  ~ (forall (this : AutotaskMcpServer (World := unit)) (st : State) (e : value),
        handler_failure this list_tools (world st) = Some e ->
        exists err, fst (dispatch this list_tools st) = Throw err /\
                    message err = "Failed to list tools").
Proof.
  intros H.
  destruct (H (rejecting (JError "timeout")) idle (JError "timeout") eq_refl)
    as (err & Herr & Hmsg).
  cbv in Herr. injection Herr as <-. discriminate Hmsg.
Qed.

(** What a [call_tool] request is to the Tool Handler: one [callTool] with
    the name and the defaulted arguments, whose outcome and world are those
    of the request. *)
Lemma call_tool_runs_callTool {World : Type}
      (this : AutotaskMcpServer (World := World))
      (name : string) (arguments : value) (st : State) :
  fst (dispatch this (call_tool name arguments) st)
  = match fst (callTool (toolHandler this) name (js_or arguments (JObj [])) (world st)) with
    | Normal result =>
        Normal (JObj [("content", content result); ("isError", isError result)])
    | Throw e => Throw (new_McpError InternalError ("Failed to call tool: " +:+ cause e))
    end /\
  world (snd (dispatch this (call_tool name arguments) st))
  = snd (callTool (toolHandler this) name (js_or arguments (JObj [])) (world st)) /\
  received (snd (dispatch this (call_tool name arguments) st))
  = received st ++ [InvCallTool name (js_or arguments (JObj []))].
Proof.
  cbn. unfold handleCallTool, try_catch, bind, await, logger. cbn.
  destruct (callTool (toolHandler this) name (js_or arguments (JObj [])) (world st))
    as [[result|e] w]; repeat split.
Qed.

(** C7: [call_tool] with [arguments] omitted behaves as with an empty
    mapping: either way the request is one call of the Tool Handler's
    [callTool] with [(name, {})], its result (or protocol error) is the one
    that call gives, the world is the one that call leaves, and the two
    requests have the same outcome and leave the same state. *)
Theorem call_tool_arguments_default {World : Type}
        (this : AutotaskMcpServer (World := World)) (name : string) (st : State) :
  dispatch this (call_tool name JUndefined) st
  = dispatch this (call_tool name (JObj [])) st /\
  received (snd (dispatch this (call_tool name JUndefined) st))
  = received st ++ [InvCallTool name (JObj [])] /\
  received (snd (dispatch this (call_tool name (JObj [])) st))
  = received st ++ [InvCallTool name (JObj [])] /\
  fst (dispatch this (call_tool name JUndefined) st)
  = match fst (callTool (toolHandler this) name (JObj []) (world st)) with
    | Normal result =>
        Normal (JObj [("content", content result); ("isError", isError result)])
    | Throw e =>
        Throw (new_McpError (-32603)%Z
                 ("Failed to call tool: "
                  +:+ match e with JError m => m | _ => "Unknown error" end))
    end /\
  world (snd (dispatch this (call_tool name JUndefined) st))
  = snd (callTool (toolHandler this) name (JObj []) (world st)).
Proof.
  destruct (call_tool_runs_callTool this name JUndefined st) as (Hres & Hw & Hrec).
  split; [reflexivity|]. split; [exact Hrec|]. split; [exact Hrec|].
  split; [|exact Hw]. rewrite Hres. cbn.
  destruct (fst (callTool (toolHandler this) name (JObj []) (world st))) as [result|e];
    [reflexivity|]. destruct e; reflexivity.
Qed.

Lemma call_tool_arguments_default_witness :
  fst (callTool (toolHandler echoing) "search_tickets" (JObj []) (world idle))
  = Normal {| content := JObj []; isError := JBool false |} /\
  fst (dispatch echoing (call_tool "search_tickets" JUndefined) idle)
  = Normal (JObj [("content", JObj []); ("isError", JBool false)]) /\
  dispatch echoing (call_tool "search_tickets" JUndefined) idle
  = dispatch echoing (call_tool "search_tickets" (JObj [])) idle.
Proof.
  destruct (call_tool_arguments_default echoing "search_tickets" idle)
    as (Hsame & _ & _ & Hres & _).
  split; [reflexivity|]. split; [exact Hres | exact Hsame].
Defined.

(** C9: whenever the value thrown by a capability handler is not an instance
    of [Error], the message of the dispatcher's protocol error ends in exactly
    "Unknown error", whatever text the thrown value carries: a thrown string
    and a thrown object with a textual [message] are such values. *)
Theorem non_Error_failure_is_unknown {World : Type}
        (this : AutotaskMcpServer (World := World))
        (r : Request) (st : State) (e : value) :
  handler_failure this r (world st) = Some e ->
  instanceof_Error e = false ->
  fst (dispatch this r st)
  = Throw (new_McpError (-32603)%Z (operation_prefix r +:+ "Unknown error")) /\
  (forall s, instanceof_Error (JStr s) = false) /\
  (forall props, instanceof_Error (JObj props) = false).
Proof.
  intros H Hn. rewrite (dispatch_failure this r st e H).
  split; [|split; reflexivity].
  destruct e; try reflexivity. discriminate Hn.
Qed.

Lemma non_Error_failure_is_unknown_witness :
  handler_failure (rejecting (JObj [("message", JStr "boom")]))
                  (call_tool "search_tickets" JUndefined) (world idle)
  = Some (JObj [("message", JStr "boom")]) /\
  instanceof_Error (JObj [("message", JStr "boom")]) = false /\
  message_text (JObj [("message", JStr "boom")]) = Some "boom" /\
  fst (dispatch (rejecting (JObj [("message", JStr "boom")]))
                (call_tool "search_tickets" JUndefined) idle)
  = Throw (new_McpError (-32603)%Z "Failed to call tool: Unknown error").
Proof.
  split; [reflexivity|]. split; [reflexivity|]. split; [reflexivity|].
  exact (proj1 (non_Error_failure_is_unknown
                  (rejecting (JObj [("message", JStr "boom")]))
                  (call_tool "search_tickets" JUndefined) idle
                  (JObj [("message", JStr "boom")]) eq_refl eq_refl)).
Defined.

(** ** Properties of the adapter *)

Lemma lookup_store (s : Server) (c : nat) (call call' : Call) (s' : Server) :
  calls s !! c = Some call ->
  calls s' = calls s ->
  calls (store c (s', call')) !! c = Some call'.
Proof.
  intros H Hc. unfold store. cbn. rewrite Hc.
  apply list_lookup_insert_eq. eapply lookup_lt_Some; eauto.
Qed.

Lemma response_of_lookup s c call : calls s !! c = Some call -> response_of s c = res call.
Proof. unfold response_of. intros ->. reflexivity. Qed.

Lemma history_of_lookup s c call : calls s !! c = Some call -> history_of s c = history call.
Proof. unfold history_of. intros ->. reflexivity. Qed.

Lemma caught_turn (s : Server) (c : nat) (call : Call) (e : value)
      (rest : M Frame value unit) :
  calls s !! c = Some call ->
  let s' := store c (run_stretch (resume (Throw e) rest) (s, call)) in
  logs s' = (logs s ++ [failure_logged e]) /\
  (headersSent (res call) = false ->
   statusCode (response_of s' c) = 500%Z /\
   sent (response_of s' c) = Some internal_server_error /\
   catch_actions (history_of s' c)
   = (catch_actions (history call)
      ++ [ALogError "Failed to handle MCP request";
          AStatusJson 500%Z internal_server_error])) /\
  (headersSent (res call) = true ->
   response_of s' c = res call /\
   catch_actions (history_of s' c)
   = (catch_actions (history call) ++ [ALogError "Failed to handle MCP request"])).
Proof.
  intros Hc. cbn zeta.
  unfold run_stretch, try_catch, resume, throw, catch_block, bind, on_server, on_call.
  cbn. destruct (headersSent (res call)) eqn:Hh; cbn.
  all: unfold response_of, history_of, store; cbn.
  all: rewrite list_lookup_insert_eq by (eapply lookup_lt_Some; eassumption); cbn.
  all: unfold catch_actions; rewrite ?List.filter_app; cbn.
  all: split; [reflexivity|]; split; intros; try discriminate.
  all: repeat split; rewrite <- ?app_assoc; reflexivity.
Qed.

(** C2: when a step of the [try] block fails in a call (the session
    constructor throws, or the [connect] or [handleRequest] promise rejects),
    the failure is logged; if no response headers have been sent, the
    response becomes status 500 with exactly the internal-error envelope; if
    they have been sent, the response is left as it is and the [catch] block
    writes nothing. *)
Theorem failure_answered_once (s s' : Server) (ev : Event) (c : nat) (err : value) :
  failing s ev = Some (c, err) ->
  step s ev = Some s' ->
  logs s' = (logs s ++ [failure_logged err]) /\
  (headersSent (response_of s c) = false ->
   statusCode (response_of s' c) = 500%Z /\
   sent (response_of s' c) = Some internal_server_error /\
   catch_actions (history_of s' c)
   = (catch_actions (history_of s c)
      ++ [ALogError "Failed to handle MCP request";
          AStatusJson 500%Z internal_server_error])) /\
  (headersSent (response_of s c) = true ->
   response_of s' c = response_of s c /\
   catch_actions (history_of s' c)
   = (catch_actions (history_of s c) ++ [ALogError "Failed to handle MCP request"])).
Proof.
  intros Hf Hs.
  destruct ev as [payload [u|e] | c0 [u|e] | c0 status | c0 [u|e] | c0 o]; cbn in Hf;
    try discriminate Hf; injection Hf as <- <-.
  - cbn in Hs. injection Hs as <-. cbn.
    unfold response_of, history_of. cbn.
    rewrite (lookup_ge_None_2 (calls s) (length (calls s))) by lia.
    rewrite list_lookup_middle by reflexivity. cbn. 
    split; [reflexivity|]. split; [intros _; repeat split | discriminate].
  - unfold step in Hs. destruct (calls s !! c0) as [call|] eqn:Hc; [|discriminate Hs].
    cbn [mbind option_bind] in Hs. destruct (pc call) eqn:Hpc; try discriminate Hs.
    injection Hs as <-.
    rewrite (response_of_lookup s c0 call Hc), (history_of_lookup s c0 call Hc).
    exact (caught_turn s c0 call e transport_handleRequest Hc).
  - unfold step in Hs. destruct (calls s !! c0) as [call|] eqn:Hc; [|discriminate Hs].
    cbn [mbind option_bind] in Hs. destruct (pc call) eqn:Hpc; try discriminate Hs.
    injection Hs as <-.
    rewrite (response_of_lookup s c0 call Hc), (history_of_lookup s c0 call Hc).
    exact (caught_turn s c0 call e (ret tt) Hc).
Qed.

Lemma failure_answered_once_witness :
  failing connecting (ConnectSettles 0 (Throw (JError "refused")))
  = Some (0, JError "refused") /\
  exists s',
    step connecting (ConnectSettles 0 (Throw (JError "refused"))) = Some s' /\
    headersSent (response_of connecting 0) = false /\
    statusCode (response_of s' 0) = 500%Z /\
    sent (response_of s' 0) = Some internal_server_error.
Proof.
  split; [reflexivity|]. eexists. split; [reflexivity|]. split; [reflexivity|].
  destruct (failure_answered_once connecting _
              (ConnectSettles 0 (Throw (JError "refused"))) 0 (JError "refused")
              eq_refl eq_refl) as (_ & Hfresh & _).
  destruct (Hfresh eq_refl) as (Hstatus & Hsent & _).
  split; [exact Hstatus | exact Hsent].
Defined.

Lemma alter_last {A} (f : A -> A) (l : list A) (x : A) :
  alter f (length l) (l ++ [x]) = (l ++ [f x]).
Proof.
  rewrite alter_app_r_alt by lia. rewrite Nat.sub_diag. reflexivity.
Qed.

Lemma inv_init : inv init.
Proof.
  split; cbn; intros; try reflexivity;
    match goal with H : [] !! _ = Some _ |- _ => inversion H end.
Qed.

(** Replacing one call keeps the invariant when the call keeps its session
    and the session facts hold again in the new state. *)
Lemma inv_update (s : Server) (c : nat) (call call' : Call)
      (ts : list Transport) (lg : list LogEntry) (un : list value) (bd : list nat) :
  let s' := {| transports := ts; calls := <[c := call']> (calls s);
               logs := lg; uncaught := un; connected := bd |} in
  inv s ->
  calls s !! c = Some call ->
  transport call' = transport call ->
  progress (body call') (pc call') (transport call') (history call') ->
  session_inv s' call' ->
  (forall c0 call0, c0 <> c -> calls s !! c0 = Some call0 ->
                    session_inv s call0 -> session_inv s' call0) ->
  inv s'.
Proof.
  intros s' [Hp Hs Hu] Hc Ht Hprog Hsess Hothers.
  assert (forall c0 call0, calls s' !! c0 = Some call0 ->
            (c0 = c /\ call0 = call') \/ (c0 <> c /\ calls s !! c0 = Some call0)) as Hold.
  { intros c0 call0 H0. cbn in H0.
    apply list_lookup_insert_Some in H0 as [(-> & -> & _)|(Hne & H0)]; auto. }
  split.
  - intros c0 call0 H0. destruct (Hold _ _ H0) as [[-> ->]|[Hne Ho]]; eauto.
  - intros c0 call0 H0. destruct (Hold _ _ H0) as [[-> ->]|[Hne Ho]]; eauto.
  - intros c1 c2 call1 call2 t H1 H2 Ht1 Ht2.
    destruct (Hold _ _ H1) as [[-> ->]|[Hne1 Ho1]];
      destruct (Hold _ _ H2) as [[-> ->]|[Hne2 Ho2]]; auto.
    + apply (Hu c c2 call call2 t); congruence.
    + apply (Hu c1 c call1 call t); congruence.
    + apply (Hu c1 c2 call1 call2 t); congruence.
Qed.

(** Updating one call without touching its session, its listeners or the
    closed flag of its response keeps the invariant. *)
Lemma inv_update_call (s : Server) (c : nat) (call call' : Call) (lg : list LogEntry) :
  inv s ->
  calls s !! c = Some call ->
  transport call' = transport call ->
  closeListeners (res call') = closeListeners (res call) ->
  closed (res call') = closed (res call) ->
  progress (body call') (pc call') (transport call') (history call') ->
  inv {| transports := transports s; calls := <[c := call']> (calls s);
         logs := lg; uncaught := uncaught s; connected := connected s |}.
Proof.
  intros Hinv Hc Ht Hl Hcl Hprog.
  apply (inv_update s c call call' (transports s) lg (uncaught s) (connected s)); auto.
  pose proof (inv_session s Hinv c call Hc) as Hs.
  unfold session_inv in *. cbn. rewrite Ht, Hl, Hcl. exact Hs.
Qed.

Lemma step_post_resolves (s : Server) (payload : value) (u : unit) :
  step s (Post payload (Normal u))
  = Some {| transports :=
              transports s
              ++ [{| sessionIdGenerator := None; onerror := true; closeCalls := 0 |}];
            calls :=
              calls s
              ++ [{| pc := AwaitConnect; body := payload;
                     res := {| headersSent := false; statusCode := 200%Z; sent := None;
                               closed := false;
                               closeListeners := [CloseTransport (length (transports s))] |};
                     transport := Some (length (transports s));
                     history := take 4 (try_steps payload) |}];
            logs := logs s; uncaught := uncaught s;
            connected := connected s ++ [length (transports s)] |}.
Proof. cbn. rewrite alter_last. reflexivity. Qed.

Lemma step_post_throws (s : Server) (payload : value) (e : value) :
  step s (Post payload (Throw e))
  = Some {| transports := transports s;
            calls :=
              calls s
              ++ [{| pc := Returned; body := payload;
                     res := {| headersSent := true; statusCode := 500%Z;
                               sent := Some internal_server_error;
                               closed := false; closeListeners := [] |};
                     transport := None;
                     history := [ANew None; ALogError "Failed to handle MCP request";
                                 AStatusJson 500%Z internal_server_error] |}];
            logs := logs s ++ [failure_logged e]; uncaught := uncaught s;
            connected := connected s |}.
Proof. reflexivity. Qed.

Lemma session_inv_grow (s : Server) (call : Call) (ts : list Transport)
      (cs : list Call) (lg : list LogEntry) (un : list value) (bd : list nat) :
  session_inv s call ->
  session_inv {| transports := transports s ++ ts; calls := cs; logs := lg;
                 uncaught := un; connected := bd |} call.
Proof.
  unfold session_inv. destruct (transport call) as [t|]; [|auto].
  intros (Hl & tr & Htr & Hrest). split; [exact Hl|].
  exists tr. split; [|exact Hrest]. cbn. apply lookup_app_l_Some. exact Htr.
Qed.

Lemma session_inv_bound (s : Server) (call : Call) (t : nat) :
  session_inv s call -> transport call = Some t -> t < length (transports s).
Proof.
  unfold session_inv. intros H Ht. rewrite Ht in H.
  destruct H as (_ & tr & Htr & _). eapply lookup_lt_Some. exact Htr.
Qed.

Lemma inv_post (s s' : Server) (payload : value) (construct : Outcome) :
  inv s -> step s (Post payload construct) = Some s' -> inv s'.
Proof.
  intros [Hp Hs Hu] Hstep. destruct construct as [u|e].
  - rewrite step_post_resolves in Hstep. injection Hstep as <-.
    split; cbn.
    + intros c call [[_ H]|[_ <-]]%lookup_snoc_Some; [eauto|]. cbn. constructor.
    + intros c call [[_ H]|[_ <-]]%lookup_snoc_Some.
      * apply (session_inv_grow s). eauto.
      * unfold session_inv. cbn. split; [reflexivity|].
        eexists. split; [apply list_lookup_middle; reflexivity|]. auto.
    + intros c1 c2 call1 call2 t [[_ H1]|[-> <-]]%lookup_snoc_Some
             [[_ H2]|[-> <-]]%lookup_snoc_Some Ht1 Ht2; cbn in *.
      * eauto.
      * injection Ht2 as <-.
        pose proof (session_inv_bound s call1 _ (Hs _ _ H1) Ht1). lia.
      * injection Ht1 as <-.
        pose proof (session_inv_bound s call2 _ (Hs _ _ H2) Ht2). lia.
      * reflexivity.
  - rewrite step_post_throws in Hstep. injection Hstep as <-.
    split; cbn.
    + intros c call [[_ H]|[_ <-]]%lookup_snoc_Some; [eauto|]. cbn.
      apply progress_construct_failed. constructor.
    + intros c call [[_ H]|[_ <-]]%lookup_snoc_Some.
      * specialize (Hs _ _ H). unfold session_inv in *. exact Hs.
      * reflexivity.
    + intros c1 c2 call1 call2 t [[_ H1]|[-> <-]]%lookup_snoc_Some
             [[_ H2]|[-> <-]]%lookup_snoc_Some Ht1 Ht2; cbn in *;
        try discriminate. eauto.
Qed.

Lemma progress_connecting_inv (b : value) (tr : option nat) (h : list Action) :
  progress b AwaitConnect tr h -> exists t, tr = Some t /\ h = take 4 (try_steps b).
Proof. inversion 1; eauto. Qed.

Lemma progress_handling_inv (b : value) (tr : option nat) (h : list Action) :
  progress b AwaitHandleRequest tr h -> exists t, tr = Some t /\ h = try_steps b.
Proof. inversion 1; eauto. Qed.

(** A stretch resumed at an [await] changes only the call's own frame and the log. *)
Lemma stretch_frame (s : Server) (c : nat) (call call1 : Call) (o : Outcome)
      (rest : M Frame value unit) :
  rest (s, goto Returned call) = (Normal tt, (s, call1)) ->
  let f := run_stretch (resume o rest) (s, call) in
  store c f
  = {| transports := transports s; calls := <[c := snd f]> (calls s);
       logs := logs (fst f); uncaught := uncaught s; connected := connected s |} /\
  (snd f = call1 \/
   exists k, caught k /\
     body (snd f) = body call /\ pc (snd f) = Returned /\
     transport (snd f) = transport call /\
     history (snd f) = history call ++ k /\
     closeListeners (res (snd f)) = closeListeners (res call) /\
     closed (res (snd f)) = closed (res call)).
Proof.
  intros Hrest. destruct o as [u|e]; cbn.
  - unfold run_stretch, try_catch. rewrite Hrest. cbn.
    split; [reflexivity | left; reflexivity].
  - unfold run_stretch, try_catch, throw, catch_block, bind, on_server, on_call. cbn.
    destruct (headersSent (res call)); cbn; (split; [reflexivity|right]).
    + exists [ALogError "Failed to handle MCP request"].
      repeat split; constructor.
    + exists [ALogError "Failed to handle MCP request";
              AStatusJson 500%Z internal_server_error].
      repeat split; [constructor|]. cbn. rewrite <- app_assoc. reflexivity.
Qed.

Lemma inv_connect_settles (s s' : Server) (c : nat) (o : Outcome) :
  inv s -> step s (ConnectSettles c o) = Some s' -> inv s'.
Proof.
  intros Hinv Hstep. unfold step in Hstep.
  destruct (calls s !! c) as [call|] eqn:Hc; [|discriminate Hstep].
  cbn [mbind option_bind] in Hstep. destruct (pc call) eqn:Hpc; try discriminate Hstep.
  injection Hstep as <-.
  pose proof (inv_progress s Hinv c call Hc) as Hp. rewrite Hpc in Hp.
  apply progress_connecting_inv in Hp as (t & Ht & Hh).
  change (inv (store c (run_stretch (resume o transport_handleRequest) (s, call)))).
  pose proof (stretch_frame s c call _ o transport_handleRequest eq_refl) as Hf.
  cbn zeta in Hf. destruct Hf as [-> Hcases].
  destruct Hcases as [Hok | (k & Hk & Hb & Hpc' & Ht' & Hh' & Hl' & Hc')].
  - eapply inv_update_call; eauto; rewrite Hok; cbn; try reflexivity.
    rewrite Ht, Hh. exact (progress_handling _ t).
  - eapply inv_update_call; eauto.
    rewrite Hb, Hpc', Ht', Hh', Ht, Hh. apply progress_connect_failed. exact Hk.
Qed.

Lemma inv_handleRequest_settles (s s' : Server) (c : nat) (o : Outcome) :
  inv s -> step s (HandleRequestSettles c o) = Some s' -> inv s'.
Proof.
  intros Hinv Hstep. unfold step in Hstep.
  destruct (calls s !! c) as [call|] eqn:Hc; [|discriminate Hstep].
  cbn [mbind option_bind] in Hstep. destruct (pc call) eqn:Hpc; try discriminate Hstep.
  injection Hstep as <-.
  pose proof (inv_progress s Hinv c call Hc) as Hp. rewrite Hpc in Hp.
  apply progress_handling_inv in Hp as (t & Ht & Hh).
  change (inv (store c (run_stretch (resume o (ret tt)) (s, call)))).
  pose proof (stretch_frame s c call _ o (ret tt) eq_refl) as Hf.
  cbn zeta in Hf. destruct Hf as [-> Hcases].
  destruct Hcases as [Hok | (k & Hk & Hb & Hpc' & Ht' & Hh' & Hl' & Hc')].
  - eapply inv_update_call; eauto; rewrite Hok; cbn; try reflexivity.
    rewrite Ht, Hh. apply progress_returned.
  - eapply inv_update_call; eauto.
    rewrite Hb, Hpc', Ht', Hh', Ht, Hh. apply progress_handle_failed. exact Hk.
Qed.

Lemma inv_transport_writes (s s' : Server) (c : nat) (status : Z) :
  inv s -> step s (TransportWrites c status) = Some s' -> inv s'.
Proof.
  intros Hinv Hstep. unfold step in Hstep.
  destruct (calls s !! c) as [call|] eqn:Hc; [|discriminate Hstep].
  cbn [mbind option_bind] in Hstep. destruct (pc call) eqn:Hpc; try discriminate Hstep.
  injection Hstep as <-.
  pose proof (inv_progress s Hinv c call Hc) as Hp.
  unfold store. cbn.
  eapply inv_update_call; eauto.
Qed.

(** The turn in which the response of a call that holds session [t] closes. *)
Lemma step_res_close_session (s : Server) (c : nat) (o : Outcome) (call : Call) (t : nat) :
  calls s !! c = Some call ->
  closed (res call) = false ->
  closeListeners (res call) = [CloseTransport t] ->
  step s (ResClose c o)
  = Some {| transports := alter bump t (transports s);
            calls := <[c := close_response call]> (calls s);
            logs := logs s; uncaught := uncaught s ++ rejection o;
            connected := connected s |}.
Proof.
  intros Hc Hcl Hl. unfold step. rewrite Hc. cbn [mbind option_bind].
  rewrite Hcl, Hl. destruct o as [u|e]; cbn; unfold store, with_transports; cbn.
  - rewrite app_nil_r. reflexivity.
  - reflexivity.
Qed.

(** The same turn for a call without a session: nothing is listening. *)
Lemma step_res_close_no_session (s : Server) (c : nat) (o : Outcome) (call : Call) :
  calls s !! c = Some call ->
  closed (res call) = false ->
  closeListeners (res call) = [] ->
  step s (ResClose c o)
  = Some {| transports := transports s;
            calls := <[c := close_response call]> (calls s);
            logs := logs s; uncaught := uncaught s;
            connected := connected s |}.
Proof.
  intros Hc Hcl Hl. unfold step. rewrite Hc. cbn [mbind option_bind].
  rewrite Hcl, Hl. reflexivity.
Qed.

Lemma inv_res_close (s s' : Server) (c : nat) (o : Outcome) :
  inv s -> step s (ResClose c o) = Some s' -> inv s'.
Proof.
  intros Hinv Hstep.
  destruct (calls s !! c) as [call|] eqn:Hc;
    [|unfold step in Hstep; rewrite Hc in Hstep; discriminate Hstep].
  destruct (closed (res call)) eqn:Hcl;
    [unfold step in Hstep; rewrite Hc in Hstep; cbn [mbind option_bind] in Hstep;
     rewrite Hcl in Hstep; discriminate Hstep|].
  pose proof (inv_session s Hinv c call Hc) as Hs.
  pose proof (inv_progress s Hinv c call Hc) as Hp.
  unfold session_inv in Hs. destruct (transport call) as [t|] eqn:Ht.
  - destruct Hs as (Hl & tr & Htr & Hgen & Hon & Hcc).
    rewrite (step_res_close_session s c o call t Hc Hcl Hl) in Hstep.
    injection Hstep as <-.
    apply (inv_update s c call (close_response call));
      [exact Hinv | exact Hc | reflexivity | cbn; rewrite Ht; exact Hp | | ].
    + unfold session_inv. cbn. rewrite Ht. split; [exact Hl|].
      exists (bump tr). rewrite list_lookup_alter_eq, Htr. cbn.
      rewrite Hcc, Hcl. auto.
    + intros c0 call0 Hne H0 Hs0. unfold session_inv in *. cbn.
      destruct (transport call0) as [t0|] eqn:Ht0; [|exact Hs0].
      destruct Hs0 as (Hl0 & tr0 & Htr0 & Hrest). split; [exact Hl0|].
      exists tr0. split; [|exact Hrest].
      rewrite list_lookup_alter_ne; [exact Htr0|].
      intros ->. apply Hne. exact (inv_unshared s Hinv c0 c call0 call t0 H0 Hc Ht0 Ht).
  - rewrite (step_res_close_no_session s c o call Hc Hcl Hs) in Hstep.
    injection Hstep as <-.
    apply (inv_update s c call (close_response call));
      [exact Hinv | exact Hc | reflexivity | cbn; rewrite Ht; exact Hp | | ].
    + unfold session_inv. cbn. rewrite Ht. exact Hs.
    + intros c0 call0 _ _ Hs0. exact Hs0.
Qed.

Lemma inv_step (s s' : Server) (ev : Event) : inv s -> step s ev = Some s' -> inv s'.
Proof.
  destruct ev; eauto using inv_post, inv_connect_settles, inv_transport_writes,
    inv_handleRequest_settles, inv_res_close.
Qed.

Lemma reachable_inv (s : Server) : reachable s -> inv s.
Proof. induction 1; eauto using inv_init, inv_step. Qed.

Lemma run_reachable (evs : list Event) (s s' : Server) :
  reachable s -> run s evs = Some s' -> reachable s'.
Proof.
  revert s. induction evs as [|ev evs IH]; intros s Hr Hrun; cbn in Hrun.
  - injection Hrun as <-. exact Hr.
  - destruct (step s ev) as [s1|] eqn:Hs; [|discriminate Hrun].
    cbn in Hrun. apply (IH s1); [|exact Hrun]. eapply reachable_step; eauto.
Qed.

Lemma teardowns_inv (s : Server) (call : Call) (t : nat) :
  session_inv s call -> transport call = Some t ->
  teardowns s t = if closed (res call) then 1 else 0.
Proof.
  unfold session_inv, teardowns. intros H Ht. rewrite Ht in H.
  destruct H as (_ & tr & -> & _ & _ & Hcc). exact Hcc.
Qed.

(** The turn in which the response stream of a call closes, seen from the
    session of the call. *)
Lemma close_turn (s : Server) (c : nat) (call : Call) (t : nat) (o : Outcome) :
  inv s ->
  calls s !! c = Some call ->
  transport call = Some t ->
  closed (res call) = false ->
  exists s', step s (ResClose c o) = Some s' /\
             teardowns s t = 0 /\ teardowns s' t = 1 /\
             logs s' = logs s /\
             uncaught s' = uncaught s ++ rejection o /\
             calls s' !! c = Some (close_response call).
Proof.
  intros Hinv Hc Ht Hcl.
  pose proof (inv_session s Hinv c call Hc) as Hs.
  pose proof (teardowns_inv s call t Hs Ht) as Hbefore. rewrite Hcl in Hbefore.
  unfold session_inv in Hs. rewrite Ht in Hs. destruct Hs as (Hl & tr & Htr & _).
  eexists. split; [exact (step_res_close_session s c o call t Hc Hcl Hl)|].
  split; [exact Hbefore|]. split; [|split; [reflexivity|split; [reflexivity|]]].
  - unfold teardowns in *. cbn. rewrite list_lookup_alter_eq.
    rewrite Htr in *. cbn. rewrite Hbefore. reflexivity.
  - cbn. apply list_lookup_insert_eq. eapply lookup_lt_Some. exact Hc.
Qed.


(** The hook is the third step and the bind the fourth: split the record
    after the first two steps. *)
Ltac split_at_hook rest :=
  exists [ANew None; ASetOnError], rest;
  split; [reflexivity|]; split; [left; reflexivity|];
  intros [Hc|[Hc|[]]]; discriminate Hc.

Lemma progress_hook_before_connect (b : value) (p : Pc) (tr : option nat)
      (h : list Action) :
  progress b p tr h ->
  In AConnect h ->
  (exists before after,
      h = before ++ AOnClose :: after /\ In AConnect after /\ ~ In AConnect before) /\
  exists t, tr = Some t.
Proof.
  intros H Hin.
  assert (forall k, caught k -> ~ In AConnect k) as Hcaught.
  { intros k Hk Hc. inversion Hk; subst; cbn in Hc;
      repeat destruct Hc as [Hc|Hc]; try discriminate Hc; contradiction. }
  inversion H as [k Hk|t|t k Hk|t|t k Hk|t]; subst.
  - exfalso. destruct Hin as [Hin|Hin]; [discriminate Hin|].
    exact (Hcaught k Hk Hin).
  - split; [|eauto]. split_at_hook [AConnect].
  - split; [|eauto]. split_at_hook (AConnect :: k).
  - split; [|eauto]. split_at_hook [AConnect; AHandleRequest b].
  - split; [|eauto]. split_at_hook (AConnect :: AHandleRequest b :: k).
  - split; [|eauto]. split_at_hook [AConnect; AHandleRequest b].
Qed.

(** C3, where the code departs from it: the close hook calls
    [transport.close()] without awaiting it, so the [try]/[catch] around the
    call never sees a teardown that fails. When the response stream of a call
    closes and the session's [close()] rejects, the session has still been
    torn down once, but nothing is logged, the rejection is left unhandled,
    and the process-level [unhandledRejection] handler ends the process with
    exit code 1; a teardown that succeeds leaves nothing behind. *)
Theorem teardown_failure_is_unhandled (s : Server) (c : nat) (call : Call) (t : nat)
        (err : value) (p : Process) :
  reachable s ->
  calls s !! c = Some call ->
  transport call = Some t ->
  closed (res call) = false ->
  (exists s',
      step s (ResClose c (Throw err)) = Some s' /\
      teardowns s' t = 1 /\
      logs s' = logs s /\
      uncaught s' = uncaught s ++ [err]) /\
  exited (turn (unhandledRejection err) p) = Some 1%Z /\
  (exists s',
      step s (ResClose c (Normal tt)) = Some s' /\
      teardowns s' t = 1 /\ logs s' = logs s /\ uncaught s' = uncaught s).
Proof.
  intros Hr Hc Ht Hcl. pose proof (reachable_inv s Hr) as Hinv.
  split; [|split].
  - destruct (close_turn s c call t (Throw err) Hinv Hc Ht Hcl)
      as (s' & Hs' & _ & H1 & Hlog & Hun & _).
    exists s'. auto.
  - reflexivity.
  - destruct (close_turn s c call t (Normal tt) Hinv Hc Ht Hcl)
      as (s' & Hs' & _ & H1 & Hlog & Hun & _).
    exists s'. cbn in Hun. rewrite app_nil_r in Hun. auto.
Qed.

Lemma teardown_failure_is_unhandled_witness :
  run init [Post (JStr "ping") (Normal tt)] = Some connecting /\
  (exists call, calls connecting !! 0 = Some call /\ transport call = Some 0 /\
                closed (res call) = false) /\
  exists s',
    step connecting (ResClose 0 (Throw (JError "already closed"))) = Some s' /\
    logs s' = [] /\
    uncaught s' = [JError "already closed"] /\
    exited (turn (unhandledRejection (JError "already closed")) booted) = Some 1%Z.
Proof.
  assert (run init [Post (JStr "ping") (Normal tt)] = Some connecting) as Hrun
      by (vm_compute; reflexivity).
  split; [exact Hrun|]. split; [eexists; repeat split|].
  destruct (teardown_failure_is_unhandled connecting 0 _ 0 (JError "already closed") booted
              (run_reachable _ init connecting reachable_init Hrun)
              eq_refl eq_refl eq_refl)
    as ((s' & Hs' & _ & Hlog & Hun) & Hexit & _).
  exists s'. split; [exact Hs'|]. split; [exact Hlog|]. split; [exact Hun | exact Hexit].
Defined.



(** C10: in a call that has issued the bind, the close hook was registered
    before the bind was issued, and the call holds a session whose hook is
    the response's close listener; so whatever happens to the bind or to the
    processing (a failure answered with the synthesized 500 included), the
    session has been torn down once if the response stream has closed, and
    is torn down once by the turn in which the stream closes. *)
Theorem teardown_hook_precedes_bind (s : Server) (c : nat) (call : Call) :
  reachable s ->
  calls s !! c = Some call ->
  In AConnect (history call) ->
  (exists before after,
      history call = before ++ AOnClose :: after /\
      In AConnect after /\ ~ In AConnect before) /\
  exists t,
    transport call = Some t /\
    closeListeners (res call) = [CloseTransport t] /\
    (closed (res call) = true -> teardowns s t = 1) /\
    (closed (res call) = false ->
     forall o, exists s', step s (ResClose c o) = Some s' /\ teardowns s' t = 1).
Proof.
  intros Hr Hc Hin. pose proof (reachable_inv s Hr) as Hinv.
  destruct (progress_hook_before_connect _ _ _ _ (inv_progress s Hinv c call Hc) Hin)
    as (Horder & t & Ht).
  split; [exact Horder|]. exists t. split; [exact Ht|].
  pose proof (inv_session s Hinv c call Hc) as Hs.
  pose proof (teardowns_inv s call t Hs Ht) as Hdown.
  unfold session_inv in Hs. rewrite Ht in Hs. destruct Hs as (Hl & _).
  split; [exact Hl|]. split.
  - intros Hcl. rewrite Hcl in Hdown. exact Hdown.
  - intros Hcl o.
    destruct (close_turn s c call t o Hinv Hc Ht Hcl) as (s' & Hs' & _ & H1 & _).
    eauto.
Qed.

Lemma teardown_hook_precedes_bind_witness :
  run init refused_turns = Some refused /\
  sent (response_of refused 1) = Some internal_server_error /\
  history_of refused 1
  = [ANew None; ASetOnError; AOnClose; AConnect;
     ALogError "Failed to handle MCP request"; AStatusJson 500%Z internal_server_error] /\
  closed (response_of refused 1) = true /\
  teardowns refused 1 = 1.
Proof.
  assert (run init refused_turns = Some refused) as Hrun by (vm_compute; reflexivity).
  split; [exact Hrun|]. split; [reflexivity|]. split; [reflexivity|].
  split; [reflexivity|].
  destruct (teardown_hook_precedes_bind refused 1 _
              (run_reachable refused_turns init refused reachable_init Hrun) eq_refl)
    as (_ & t & Ht & _ & Hdown & _).
  - cbn. auto.
  - injection Ht as <-. exact (Hdown eq_refl).
Defined.

(** ** Further properties of the dispatcher *)

Section DispatcherFurther.

Context {World : Type}.
Variable this : AutotaskMcpServer (World := World).

(** What a request does to the state, whichever way the handler settles:
    one debug line, one handler call, the handler's world, and on failure
    one error line that carries the thrown value. *)
Lemma dispatch_state (r : Request) (st : State) :
  exists dbg,
    received (snd (dispatch this r st)) = received st ++ [invocation_of r] /\
    world (snd (dispatch this r st)) = handler_world this r (world st) /\
    match handler_failure this r (world st) with
    | None =>
        log (snd (dispatch this r st))
        = log st ++ [{| level := Debug; text := dbg; data := None |}]
    | Some e =>
        exists msg,
          log (snd (dispatch this r st))
          = log st ++ [{| level := Debug; text := dbg; data := None |};
                       {| level := Err; text := msg; data := Some e |}]
    end.
Proof.
  destruct r as [|uri| |name arguments]; cbn;
    unfold handleListResources, handleReadResource, handleListTools, handleCallTool,
      try_catch, bind, await, logger; cbn;
    match goal with
    | |- context [?op (world st)] => destruct (op (world st)) as [[a|e'] w]
    end; cbn; eexists;
    (split; [reflexivity|split; [reflexivity|]]);
    try reflexivity; eexists; rewrite <- app_assoc; reflexivity.
Qed.

(** The dispatcher returns normally exactly when the handler resolves. *)
Lemma dispatch_outcome (r : Request) (st : State) :
  match handler_failure this r (world st) with
  | None => exists result, fst (dispatch this r st) = Normal result
  | Some e =>
      fst (dispatch this r st)
      = Throw (new_McpError InternalError (operation_prefix r +:+ cause e))
  end.
Proof.
  destruct (handler_failure this r (world st)) as [e|] eqn:H.
  - exact (dispatch_failure this r st e H).
  - revert H. destruct r as [|uri| |name arguments]; cbn;
      unfold handleListResources, handleReadResource, handleListTools, handleCallTool,
        try_catch, bind, await, logger; cbn;
      match goal with
      | |- context [?op (world st)] => destruct (op (world st)) as [[a|e'] w]
      end; cbn; intros H; try discriminate H; eexists; reflexivity.
Qed.

End DispatcherFurther.

(** X1: the dispatcher throws exactly when the capability handler it calls
    throws, and returns a result exactly when the handler resolves: it neither
    swallows a handler failure nor invents one. *)
Theorem dispatch_throws_iff_handler_throws {World : Type}
        (this : AutotaskMcpServer (World := World)) (r : Request) (st : State) :
  ((exists err, fst (dispatch this r st) = Throw err)
   <-> exists e, handler_failure this r (world st) = Some e) /\
  ((exists result, fst (dispatch this r st) = Normal result)
   <-> handler_failure this r (world st) = None).
Proof.
  pose proof (dispatch_outcome this r st) as H.
  destruct (handler_failure this r (world st)) as [e|].
  - rewrite H. split; split.
    + eauto.
    + eauto.
    + intros [result Hr]. discriminate Hr.
    + discriminate.
  - destruct H as [result Hres]. rewrite Hres. split; split.
    + intros [err He]. discriminate He.
    + intros [e He]. discriminate He.
    + reflexivity.
    + eauto.
Qed.

(** X2: every request, whether it succeeds or fails, makes exactly one call
    on its capability handler, with the request's own parameters, and leaves
    the world exactly as that call left it. *)
Theorem one_handler_call_per_request {World : Type}
        (this : AutotaskMcpServer (World := World)) (r : Request) (st : State) :
  received (snd (dispatch this r st))
  = received st
    ++ [match r with
        | list_resources => InvListResources
        | read_resource uri => InvReadResource uri
        | list_tools => InvListTools
        | call_tool name arguments =>
            InvCallTool name (if truthy arguments then arguments else JObj [])
        end] /\
  world (snd (dispatch this r st)) = handler_world this r (world st).
Proof.
  destruct (dispatch_state this r st) as (dbg & Hrec & Hw & _).
  rewrite Hrec, Hw. split; [|reflexivity]. destruct r; reflexivity.
Qed.

(** X3: a request logs one debug line before it calls the handler; when the
    handler throws, one error line follows, and it carries the thrown value
    itself, also when the protocol error only says "Unknown error"; when the
    handler resolves, nothing else is logged. *)
Theorem thrown_value_is_logged {World : Type}
        (this : AutotaskMcpServer (World := World)) (r : Request) (st : State) :
  exists dbg,
    match handler_failure this r (world st) with
    | None =>
        log (snd (dispatch this r st))
        = log st ++ [{| level := Debug; text := dbg; data := None |}]
    | Some e =>
        exists msg,
          log (snd (dispatch this r st))
          = log st ++ [{| level := Debug; text := dbg; data := None |};
                       {| level := Err; text := msg; data := Some e |}]
    end.
Proof.
  destruct (dispatch_state this r st) as (dbg & _ & _ & Hlog). eauto.
Qed.

(** X4: when [call_tool] comes with an [arguments] mapping, also an empty
    one, the request is one call of the Tool Handler's [callTool] with the
    name and exactly that mapping (the default never replaces it); the
    request's result, or its protocol error, is the one that call gives and
    the world is the one that call leaves. *)
Theorem call_tool_arguments_verbatim {World : Type}
        (this : AutotaskMcpServer (World := World))
        (name : string) (props : list (string * value)) (st : State) :
  fst (dispatch this (call_tool name (JObj props)) st)
  = match fst (callTool (toolHandler this) name (JObj props) (world st)) with
    | Normal result =>
        Normal (JObj [("content", content result); ("isError", isError result)])
    | Throw e =>
        Throw (new_McpError (-32603)%Z
                 ("Failed to call tool: "
                  +:+ match e with JError m => m | _ => "Unknown error" end))
    end /\
  world (snd (dispatch this (call_tool name (JObj props)) st))
  = snd (callTool (toolHandler this) name (JObj props) (world st)) /\
  received (snd (dispatch this (call_tool name (JObj props)) st))
  = received st ++ [InvCallTool name (JObj props)].
Proof.
  destruct (call_tool_runs_callTool this name (JObj props) st) as (Hres & Hw & Hrec).
  split; [|split; [exact Hw | exact Hrec]]. rewrite Hres. cbn.
  destruct (fst (callTool (toolHandler this) name (JObj props) (world st)))
    as [result|e]; [reflexivity|]. destruct e; reflexivity.
Qed.

(** X5: when the handler throws an [Error] whose message is empty (as
    [new Error()] has), the protocol error's message ends with the
    operation's prefix: it is "MCP error -32603: " and the prefix, and
    nothing more; it does not say "Unknown error". *)
Theorem empty_Error_message_gives_bare_prefix {World : Type}
        (this : AutotaskMcpServer (World := World)) (r : Request) (st : State) :
  handler_failure this r (world st) = Some (JError "") ->
  fst (dispatch this r st)
  = Throw {| code := (-32603)%Z;
             message := "MCP error -32603: " +:+ operation_prefix r |} /\
  fst (dispatch this r st)
  <> Throw {| code := (-32603)%Z;
              message := "MCP error -32603: " +:+ operation_prefix r
                         +:+ "Unknown error" |}.
Proof.
  intros H. rewrite (dispatch_failure this r st (JError "") H).
  destruct r; cbn; split; try reflexivity; discriminate.
Qed.

Lemma empty_Error_message_gives_bare_prefix_witness :
  handler_failure (rejecting (JError "")) list_tools (world idle) = Some (JError "") /\
  fst (dispatch (rejecting (JError "")) list_tools idle)
  = Throw {| code := (-32603)%Z; message := "MCP error -32603: Failed to list tools: " |}.
Proof.
  split; [reflexivity|].
  exact (proj1 (empty_Error_message_gives_bare_prefix
                  (rejecting (JError "")) list_tools idle eq_refl)).
Defined.

(** ** Properties of the process *)

Lemma js_and_truthy (a b : value) : truthy (js_and a b) = truthy a && truthy b.
Proof. unfold js_and. destruct (truthy a) eqn:Ha; [reflexivity | exact Ha]. Qed.

Lemma js_or_truthy (a b : value) : truthy (js_or a b) = truthy a || truthy b.
Proof. unfold js_or. destruct (truthy a) eqn:Ha; [exact Ha | reflexivity]. Qed.

(** The flag that [main] logs and the test that [main] makes agree. *)
Lemma credentials_flag_and_test (cfg : McpServerConfig) :
  let a := autotask cfg in
  js_not (js_not (js_and (js_and (username a) (secret a)) (integrationCode a)))
  = JBool (has_credentials cfg) /\
  truthy (js_or (js_or (js_not (username a)) (js_not (secret a)))
                (js_not (integrationCode a)))
  = negb (has_credentials cfg).
Proof.
  cbn zeta. unfold has_credentials. split.
  - unfold js_not at 1 2. cbn [truthy]. rewrite !js_and_truthy, negb_involutive.
    reflexivity.
  - rewrite !js_or_truthy. unfold js_not. cbn [truthy].
    destruct (truthy (username (autotask cfg))), (truthy (secret (autotask cfg))),
      (truthy (integrationCode (autotask cfg))); reflexivity.
Qed.

Lemma program_loader_fails (h : Host) (e : value) :
  loader_failure h = Some e ->
  program h
  = {| loggerVar := false;
       effects := [EConsoleError "Failed to start Autotask MCP Server:" e];
       exited := Some 1%Z |}.
Proof.
  unfold loader_failure, program, main, turn, try_catch_js, bind, settle.
  destruct (loadEnvironmentConfig h) as [envConfig|e0]; cbn.
  - destruct (mergeWithMcpConfig h envConfig) as [cfg|e1]; cbn; [discriminate|].
    intros [= <-]. reflexivity.
  - intros [= <-]. reflexivity.
Qed.

Lemma program_loaded (h : Host) (envConfig : EnvironmentConfig) (cfg : McpServerConfig) :
  loaded_config h = Some (envConfig, cfg) ->
  program h
  = if has_credentials cfg
    then match new_AutotaskService h with
         | Normal _ =>
             match app_listen h (listen_port h) (listen_host h) with
             | Normal _ =>
                 {| loggerVar := true;
                    effects :=
                      starting_lines envConfig cfg ++ setup_lines
                      ++ [ECreateHttpServer;
                          EListen (listen_port h) (listen_host h);
                          EProcessOn SIGINT; EProcessOn SIGTERM];
                    exited := None |}
             | Throw e =>
                 {| loggerVar := true;
                    effects := starting_lines envConfig cfg ++ setup_lines
                               ++ [ECreateHttpServer; start_failure e];
                    exited := Some 1%Z |}
             end
         | Throw e =>
             {| loggerVar := true;
                effects := starting_lines envConfig cfg
                           ++ [ENewAutotaskService; start_failure e];
                exited := Some 1%Z |}
         end
    else {| loggerVar := true;
            effects := starting_lines envConfig cfg
                       ++ [start_failure (JError missing_credentials)];
            exited := Some 1%Z |}.
Proof.
  unfold loaded_config. intros H.
  destruct (loadEnvironmentConfig h) as [env0|e0] eqn:Hl; [|discriminate H].
  destruct (mergeWithMcpConfig h env0) as [cfg0|e1] eqn:Hm; [|discriminate H].
  injection H as -> ->.
  destruct (credentials_flag_and_test cfg) as [Hflag Htest]. cbn zeta in Hflag, Htest.
  unfold program, main, turn, try_catch_js, bind, settle. rewrite Hl, Hm. cbn.
  rewrite Hflag, Htest. unfold starting_lines.
  destruct (has_credentials cfg); cbn; [|reflexivity].
  destruct (new_AutotaskService h) as [u|e]; [|reflexivity]. cbn.
  fold (listen_port h) (listen_host h).
  destruct (app_listen h (listen_port h) (listen_host h)) as [u'|e]; reflexivity.
Qed.

Lemma loaders_cases (h : Host) :
  (exists e, loader_failure h = Some e /\ loaded_config h = None) \/
  (exists envConfig cfg, loaded_config h = Some (envConfig, cfg) /\ loader_failure h = None).
Proof.
  unfold loader_failure, loaded_config.
  destruct (loadEnvironmentConfig h) as [envConfig|e]; [|left; eauto].
  destruct (mergeWithMcpConfig h envConfig) as [cfg|e]; [right|left]; eauto.
Qed.


(** X7: the credentials gate. Once the configuration is loaded, [main] logs
    whether all three credentials are present and not empty, and constructs
    the service exactly when the logged flag is true; when a credential is
    missing or empty it reports the "Missing required Autotask credentials"
    error on the logger and exits with code 1, having constructed nothing. *)
Theorem credentials_gate (h : Host) (envConfig : EnvironmentConfig)
        (cfg : McpServerConfig) :
  loaded_config h = Some (envConfig, cfg) ->
  In (ELog {| level := Debug; text := "Configuration loaded";
              data := Some (JObj [("serverName", JStr (config_name cfg));
                                  ("serverVersion", JStr (config_version cfg));
                                  ("hasCredentials", JBool (has_credentials cfg))]) |})
     (effects (program h)) /\
  constructed_services (effects (program h)) = (if has_credentials cfg then 1 else 0) /\
  (has_credentials cfg = false ->
   exited (program h) = Some 1%Z /\
   last (effects (program h))
   = Some (ELog {| level := Err; text := "Failed to start Autotask MCP Server:";
                   data := Some (JError missing_credentials) |})) /\
  (has_credentials cfg = false <->
   truthy (username (autotask cfg)) = false \/
   truthy (secret (autotask cfg)) = false \/
   truthy (integrationCode (autotask cfg)) = false).
Proof.
  intros Hl. rewrite (program_loaded h envConfig cfg Hl).
  split; [|split; [|split]].
  - assert (forall rest,
              In (ELog {| level := Debug; text := "Configuration loaded";
                          data := Some (JObj [("serverName", JStr (config_name cfg));
                                              ("serverVersion", JStr (config_version cfg));
                                              ("hasCredentials",
                                               JBool (has_credentials cfg))]) |})
                 (starting_lines envConfig cfg ++ rest)) as Hin
        by (intros rest; apply in_or_app; left; right; right; left; reflexivity).
    destruct (has_credentials cfg) eqn:Hc; [destruct (new_AutotaskService h);
       [destruct (app_listen h (listen_port h) (listen_host h))|]|];
      cbn [effects]; apply Hin.
  - destruct (has_credentials cfg); [destruct (new_AutotaskService h);
       [destruct (app_listen h (listen_port h) (listen_host h))|]|]; reflexivity.
  - intros ->. split; reflexivity.
  - unfold has_credentials.
    destruct (truthy (username (autotask cfg))), (truthy (secret (autotask cfg))),
      (truthy (integrationCode (autotask cfg))); cbn; intuition congruence.
Qed.

Lemma credentials_gate_witness :
  loaded_config (host_with without_secret)
  = Some ({| logging_level := "info"; logging_format := "json" |}, without_secret) /\
  has_credentials without_secret = false /\
  constructed_services (effects (program (host_with without_secret))) = 0 /\
  exited (program (host_with without_secret)) = Some 1%Z.
Proof.
  split; [reflexivity|]. split; [reflexivity|].
  destruct (credentials_gate (host_with without_secret) _ without_secret eq_refl)
    as (_ & Hn & Hmissing & _).
  split; [exact Hn | exact (proj1 (Hmissing eq_refl))].
Defined.

(** X8: where a startup failure is reported. A loader that throws does so
    before the logger exists: the failure goes to [console.error], nothing
    else happens, and the process exits with code 1. Once the loaders have
    returned, nothing is ever written with [console.error] by the startup. *)
Theorem startup_failure_channel (h : Host) :
  match loader_failure h with
  | Some e =>
      effects (program h) = [EConsoleError "Failed to start Autotask MCP Server:" e] /\
      exited (program h) = Some 1%Z
  | None =>
      forall t e, ~ In (EConsoleError t e) (effects (program h))
  end.
Proof.
  destruct (loaders_cases h) as [(e & Hf & Hl)|(envConfig & cfg & Hl & Hf)];
    rewrite Hf.
  - rewrite (program_loader_fails h e Hf). split; reflexivity.
  - intros t e. rewrite (program_loaded h envConfig cfg Hl).
    destruct (has_credentials cfg); [destruct (new_AutotaskService h);
       [destruct (app_listen h (listen_port h) (listen_host h))|]|];
      cbn; intros Hin; repeat destruct Hin as [Hin|Hin]; try discriminate Hin;
      contradiction.
Qed.

(** X9: graceful shutdown. In a running process that has a handler for the
    signal, the handler logs, closes the HTTP server, then stops the
    dispatcher. When the dispatcher's [close] resolves, "stopped" is logged
    and the process exits with code 0; when it rejects, the rejection is
    unhandled, goes to [console.error], "stopped" is not logged and the exit
    code is 1. After that no signal is handled any more. *)
Theorem graceful_shutdown (sig : Signal) (close : Outcome) (p : Process) :
  exited p = None ->
  existsb (registered sig) (effects p) = true ->
  exists p',
    deliver sig close p = Some p' /\
    effects p'
    = effects p ++ shutdown_lines sig
      ++ [match close with
          | Normal _ =>
              ELog {| level := Info; text := "Autotask MCP Server stopped"; data := None |}
          | Throw e => EConsoleError "Unhandled Rejection at:" e
          end] /\
    exited p' = Some match close with Normal _ => 0%Z | Throw _ => 1%Z end /\
    forall sig' close', deliver sig' close' p' = None.
Proof.
  intros Hrun Hreg. unfold deliver. rewrite Hrun, Hreg.
  destruct close as [u|e]; destruct sig; cbn; eexists;
    (split; [reflexivity|]); cbn; rewrite <- ?app_assoc; cbn;
    (split; [reflexivity|]); (split; [reflexivity|]); reflexivity.
Qed.

Lemma graceful_shutdown_witness :
  exited (program (host_with configured)) = None /\
  existsb (registered SIGTERM) (effects (program (host_with configured))) = true /\
  exists p',
    deliver SIGTERM (Throw (JError "close failed")) (program (host_with configured))
    = Some p' /\
    exited p' = Some 1%Z /\
    last (effects p') = Some (EConsoleError "Unhandled Rejection at:" (JError "close failed")).
Proof.
  split; [reflexivity|]. split; [reflexivity|].
  destruct (graceful_shutdown SIGTERM (Throw (JError "close failed"))
              (program (host_with configured)) eq_refl eq_refl)
    as (p' & Hd & He & Hx & _).
  exists p'. split; [exact Hd|]. split; [exact Hx|].
  rewrite He. rewrite !app_assoc. apply last_snoc.
Defined.

(** X10: neither [start] nor [stop] catches anything. [start] installs both
    callbacks before it connects; when [connect] rejects, [start] rejects with
    the same value and the "started" line is not logged. [stop] logs, closes
    the SDK server, and logs "stopped" only when [close] resolved; a
    rejection of [close] is the rejection of [stop]. The error callback that
    [start] installs logs the error and returns. *)
Theorem life_cycle_propagates (settled : Outcome) (error : value) (p : Process) :
  fst (start settled p)
  = match settled with Normal _ => Normal tt | Throw e => Throw (Thrown e) end /\
  effects (snd (start settled p))
  = effects p
    ++ [ELog {| level := Info; text := "Starting Autotask MCP Server..."; data := None |};
        ENewStdioServerTransport; ESetOnError; ESetOnInitialized; EServerConnect]
    ++ match settled with
       | Normal _ =>
           [ELog {| level := Info;
                    text := "Autotask MCP Server started and connected to stdio transport";
                    data := None |}]
       | Throw _ => []
       end /\
  fst (stop settled p)
  = match settled with Normal _ => Normal tt | Throw e => Throw (Thrown e) end /\
  effects (snd (stop settled p))
  = effects p
    ++ [ELog {| level := Info; text := "Stopping Autotask MCP Server..."; data := None |};
        EServerClose]
    ++ match settled with
       | Normal _ =>
           [ELog {| level := Info; text := "Autotask MCP Server stopped"; data := None |}]
       | Throw _ => []
       end /\
  server_onerror error p
  = (Normal tt,
     {| loggerVar := loggerVar p;
        effects := effects p ++ [ELog {| level := Err; text := "MCP Server error:";
                                         data := Some error |}];
        exited := exited p |}).
Proof.
  destruct settled as [u|e]; cbn; rewrite <- ?app_assoc; cbn;
    repeat split; try reflexivity; destruct u; reflexivity.
Qed.

(** ** Further properties of the adapter *)

Lemma answer_inv_init (payload : value) (l : list Listener) (t : option nat)
      (p : Pc) (h : list Action) :
  (forall status b, ~ In (AStatusJson status b) h) ->
  answer_inv {| pc := p; body := payload;
                res := {| headersSent := false; statusCode := 200%Z; sent := None;
                          closed := false; closeListeners := l |};
                transport := t; history := h |}.
Proof. intros H. exact H. Qed.

(** The [catch] block keeps the answer invariant of a call that has not
    answered yet. *)
Lemma answer_inv_caught (s : Server) (call : Call) (e : value)
      (rest : M Frame value unit) :
  answer_inv call ->
  sent (res call) = None ->
  answer_inv (snd (run_stretch (resume (Throw e) rest) (s, call))).
Proof.
  intros Ha Hs. unfold answer_inv in Ha. rewrite Hs in Ha. rename Ha into Hno.
  unfold run_stretch, try_catch, resume, throw, catch_block, bind, on_server, on_call.
  cbn. destruct (headersSent (res call)) eqn:Hh; cbn; unfold answer_inv; cbn.
  - rewrite Hs. intros status b [Hin|Hin]%in_app_or.
    + exact (Hno status b Hin).
    + destruct Hin as [Hin|[]]. discriminate Hin.
  - repeat split. apply last_snoc.
Qed.

Lemma answer_inv_pending (call : Call) :
  answer_inv call -> pc call <> Returned -> sent (res call) = None.
Proof.
  unfold answer_inv. destruct (sent (res call)); [|reflexivity].
  intros (_ & _ & _ & Hpc & _) Hne. contradiction.
Qed.

(** Closing a stream touches sessions and the log, never the calls. *)
Lemma emit_close_calls (ls : list Listener) (o : Outcome) (s : Server) :
  calls (emit_close ls o s) = calls s.
Proof.
  revert s. induction ls as [|l ls IH]; intros s; [reflexivity|].
  cbn. unfold emit_close in IH. rewrite IH. destruct l, o; reflexivity.
Qed.

Lemma answer_inv_step (s s' : Server) (ev : Event) :
  (forall c call, calls s !! c = Some call -> answer_inv call) ->
  step s ev = Some s' ->
  forall c call, calls s' !! c = Some call -> answer_inv call.
Proof.
  intros Hall Hstep c call Hc.
  assert (forall c0 old new lg ts un bd,
             calls s !! c0 = Some old -> answer_inv new ->
             {| transports := ts; calls := <[c0 := new]> (calls s); logs := lg;
                uncaught := un; connected := bd |} = s' -> answer_inv call) as Hupd.
  { intros c0 old new lg ts un bd Hold Hnew <-. cbn in Hc.
    apply list_lookup_insert_Some in Hc as [(-> & -> & _)|(_ & Hc)]; eauto. }
  destruct ev as [payload construct|c0 o|c0 status|c0 o|c0 o].
  - destruct construct as [u|e];
      [rewrite step_post_resolves in Hstep | rewrite step_post_throws in Hstep];
      injection Hstep as <-; cbn in Hc;
      apply lookup_snoc_Some in Hc as [[_ Hc]|[_ <-]]; eauto.
    + apply answer_inv_init. cbn. intros status b Hin.
      repeat destruct Hin as [Hin|Hin]; try discriminate Hin; contradiction.
    + unfold answer_inv. cbn. repeat split.
  - unfold step in Hstep. destruct (calls s !! c0) as [old|] eqn:Ho; [|discriminate Hstep].
    cbn [mbind option_bind] in Hstep. destruct (pc old) eqn:Hpc; try discriminate Hstep.
    injection Hstep as Hstep.
    pose proof (answer_inv_pending old (Hall _ _ Ho)) as Hs.
    rewrite Hpc in Hs. specialize (Hs ltac:(discriminate)).
    change (store c0 (run_stretch (resume o transport_handleRequest) (s, old)) = s')
      in Hstep.
    pose proof (stretch_frame s c0 old _ o transport_handleRequest eq_refl) as [Hf _].
    cbn zeta in Hf. rewrite Hf in Hstep.
    eapply Hupd; [exact Ho| |exact Hstep].
    destruct o as [u|e]; [|exact (answer_inv_caught s old e _ (Hall _ _ Ho) Hs)].
    pose proof (Hall _ _ Ho) as Ha. unfold answer_inv in *. cbn. rewrite Hs in *.
    intros status' b [Hin|[Hin|[]]]%in_app_or; [exact (Ha _ _ Hin) | discriminate Hin].
  - unfold step in Hstep. destruct (calls s !! c0) as [old|] eqn:Ho; [|discriminate Hstep].
    cbn [mbind option_bind] in Hstep. destruct (pc old) eqn:Hpc; try discriminate Hstep.
    injection Hstep as Hstep.
    pose proof (answer_inv_pending old (Hall _ _ Ho)) as Hs.
    rewrite Hpc in Hs. specialize (Hs ltac:(discriminate)).
    unfold store, with_calls in Hstep. cbn in Hstep.
    eapply Hupd; [exact Ho| |exact Hstep].
    pose proof (Hall _ _ Ho) as Ha. unfold answer_inv in *. cbn. rewrite Hs in *.
    exact Ha.
  - unfold step in Hstep. destruct (calls s !! c0) as [old|] eqn:Ho; [|discriminate Hstep].
    cbn [mbind option_bind] in Hstep. destruct (pc old) eqn:Hpc; try discriminate Hstep.
    injection Hstep as Hstep.
    pose proof (answer_inv_pending old (Hall _ _ Ho)) as Hs.
    rewrite Hpc in Hs. specialize (Hs ltac:(discriminate)).
    change (store c0 (run_stretch (resume o (ret tt)) (s, old)) = s') in Hstep.
    pose proof (stretch_frame s c0 old _ o (ret tt) eq_refl) as [Hf _].
    cbn zeta in Hf. rewrite Hf in Hstep.
    eapply Hupd; [exact Ho| |exact Hstep].
    destruct o as [u|e]; [|exact (answer_inv_caught s old e _ (Hall _ _ Ho) Hs)].
    pose proof (Hall _ _ Ho) as Ha. unfold answer_inv in *. cbn. rewrite Hs in *.
    exact Ha.
  - unfold step in Hstep. destruct (calls s !! c0) as [old|] eqn:Ho; [|discriminate Hstep].
    cbn [mbind option_bind] in Hstep.
    destruct (closed (res old)) eqn:Hcl; [discriminate Hstep|].
    injection Hstep as Hstep.
    assert (calls s' = <[c0 := close_response old]> (calls s)) as Hcalls
        by (rewrite <- Hstep, emit_close_calls; reflexivity).
    rewrite Hcalls in Hc.
    apply list_lookup_insert_Some in Hc as [(_ & <- & _)|(_ & Hc)]; eauto.
    pose proof (Hall _ _ Ho) as Ha. unfold answer_inv in *. cbn.
    destruct (sent (res old)); exact Ha.
Qed.

Lemma reachable_answer_inv (s : Server) :
  reachable s -> forall c call, calls s !! c = Some call -> answer_inv call.
Proof.
  induction 1 as [|s ev s' Hr IH Hstep].
  - intros c call Hc. inversion Hc.
  - exact (answer_inv_step s s' ev IH Hstep).
Qed.

Lemma progress_answers (b : value) (p : Pc) (tr : option nat) (h : list Action) :
  progress b p tr h -> length (List.filter is_answer h) <= 1.
Proof.
  intros H. inversion H as [k Hk|t|t k Hk|t|t k Hk|t]; subst;
    try inversion Hk; subst; cbn; lia.
Qed.

(** X11: the route answers a call at most once, and only with the
    synthesized error. In every reachable state either [res.json] has written
    nothing on the response of a call, and then the route's record holds no
    write at all; or it has written exactly the internal-error envelope, with
    status 500, as the last act of a call that has returned. Whatever the
    session itself has put on the response meanwhile, the route adds no
    second write. *)
Theorem route_answers_only_with_the_envelope (s : Server) (c : nat) (call : Call) :
  reachable s ->
  calls s !! c = Some call ->
  length (List.filter is_answer (history call)) <= 1 /\
  match sent (res call) with
  | None =>
      forall status payload, ~ In (AStatusJson status payload) (history call)
  | Some payload =>
      payload = internal_server_error /\
      statusCode (res call) = 500%Z /\
      headersSent (res call) = true /\
      pc call = Returned /\
      last (history call) = Some (AStatusJson 500%Z internal_server_error)
  end.
Proof.
  intros Hr Hc. split.
  - exact (progress_answers _ _ _ _ (inv_progress s (reachable_inv s Hr) c call Hc)).
  - exact (reachable_answer_inv s Hr c call Hc).
Qed.

Lemma route_answers_only_with_the_envelope_witness :
  run init refused_turns = Some refused /\
  (exists call, calls refused !! 0 = Some call /\ sent (res call) = None /\
                forall status payload, ~ In (AStatusJson status payload) (history call)) /\
  (exists call, calls refused !! 1 = Some call /\
                sent (res call) = Some internal_server_error /\
                statusCode (res call) = 500%Z).
Proof.
  assert (run init refused_turns = Some refused) as Hrun by (vm_compute; reflexivity).
  pose proof (run_reachable refused_turns init refused reachable_init Hrun) as Hr.
  split; [exact Hrun|]. split.
  - eexists. split; [reflexivity|]. split; [reflexivity|].
    exact (proj2 (route_answers_only_with_the_envelope refused 0 _ Hr eq_refl)).
  - eexists. split; [reflexivity|]. split; [reflexivity|].
    exact (proj1 (proj2 (proj2 (route_answers_only_with_the_envelope
                                  refused 1 _ Hr eq_refl)))).
Defined.





